(** * DrawRoad: the route-and-spot drawing session

    A shallow embedding of the event handlers of
    [src/components/templates/DrawRoad.tsx] (the [DrawRoad] function
    component) and of the event loop they run on.

    - The redux store ([routes], [spots]) and the component's [useState]
      cells are fields of one [State] record; a handler is a function
      [State -> State] that reads the values its closure captured and applies
      its state updates in program order.
    - Every call on [mapRef.current?.mapServiceRef.current] is appended to
      [mapCalls]; the optional chaining is the [mapService] flag.
    - [setTimeout]/[clearTimeout] act on a table of pending timers indexed by
      the timer id, with a logical clock in milliseconds; an [await] parks
      the rest of the handler in a list of lookups in flight, resumed by the
      event that settles the promise.
    - After every handler the component re-renders and the effect on
      [routes] runs when the list has changed.

    Embedded: [handleClickMode], [handleChangeSearchQuery] with its timer
    callback, [handkleClickMap] with its continuation, [handleClickClearRoad],
    [handleClickRevertRoad], [handleClickSpot], [handleRemoveSpot], the
    effect with dependencies [[dispatch, routes]], the effect without
    dependency that dispatches on mount, and the rows of the route list and of
    the spot list; from [src/components/templates/MakeRoad.tsx],
    [handleSubmit] and the effect that reads the [roadId] query parameter.
    Left out: the focus of the search box ([handleFocus],
    [handleClickSearchClose], [handleClickPlace] and the effect that resizes
    the map), the editing of a spot's title and content, the effects that
    draw a saved road on mount, and in [MakeRoad] the effects on success and
    on error and [handleClickClose]. *)

From Stdlib Require Import PrimFloat ZArith String List Lia.
From stdpp Require Import base option list gmap strings.

Local Open Scope string_scope.
Local Open Scope list_scope.
Local Open Scope Z_scope.

(** ** Data *)

(** [{ latitude, longitude }]: JavaScript numbers, that is binary64. *)
Record RoutePoint := { latitude : float; longitude : float }.

(** [models/Spot]: a point with a title and a content. *)
Record SpotModel := { point : RoutePoint; title : string; content : string }.

Module DrawMode.
Inductive t := Road | Spot.
End DrawMode.

(** An entry of the list a place search resolves to; the component reads
    [id], [place_name], [road_address_name], [x] and [y]. *)
Record Place := {
  id : string;
  place_name : string;
  road_address_name : string;
  x : float;
  y : float
}.

(** The [road_address] and [address] members of an entry of the list
    [searchAddress] resolves to. [None] is [undefined] or [null]. *)
Record AddressInfo := {
  address_name : option string;
  region_3depth_name : option string
}.

Record AddressResult := {
  road_address : option AddressInfo;
  address : option AddressInfo
}.

(** How an awaited promise settles. [Fulfilled None] is a promise that
    resolves to [undefined], which is also what [await] gives when the
    optional chain short-circuits. *)
Inductive Settled (A : Type) :=
| Fulfilled (v : option A)
| Rejected.
Arguments Fulfilled {A} v.
Arguments Rejected {A}.

(** The outcome of a [try] block. *)
Inductive Completion (A : Type) :=
| Normal (a : A)
| Thrown.
Arguments Normal {A} a.
Arguments Thrown {A}.

(** The methods of the map service the component calls. *)
Inductive MapCall :=
| drawLine (lat lon : float)
| addMarker (lat lon : float)
| removeAllLines
| removeLastLine
| removeMarker (index : Z)
| moveTo (lat lon : float)
| removeCurrentLocationMarker
| searchAddress (lat lon : float)
| searchPlaces (value : string).

(** The actions of [stores/actions/editActions] the component dispatches. *)
Inductive Action :=
| addRoute (p : RoutePoint)
| removeRoute
| clearRoute
| addSpot (p : RoutePoint)
| removeSpot (index : Z)
| requestGetPlaces (p : RoutePoint).

(** A pending [setTimeout] of [handleChangeSearchQuery]: when it is due and
    the [value] its callback closed over. *)
Record Timer := { due : nat; value : string }.

(** A lookup in flight: the id of the promise and the argument of the call. *)
Record Lookup (A : Type) := { promise : nat; request : A }.
Arguments promise {A} _.
Arguments request {A} _.
Arguments Build_Lookup {A} _ _.

Record State := {
  (* redux store *)
  routes : list RoutePoint;
  spots : list SpotModel;
  dispatched : list Action;
  (* useState *)
  mode : DrawMode.t;
  searchQuery : string;
  places : option (list Place);
  addresses : list string;
  selectedSpot : option Z;
  (* useRef *)
  mapService : bool;
  searchQueryDebounceRef : option positive;
  (* the world outside the component *)
  mapCalls : list MapCall;
  clock : nat;
  timers : gmap positive Timer;
  nextTimer : positive;
  addressLookups : list (Lookup RoutePoint);
  placeLookups : list (Lookup string);
  nextPromise : nat
}.

(** The session when it opens on an empty road. *)
Definition init (service : bool) : State := {|
  routes := []; spots := []; dispatched := [];
  mode := DrawMode.Road; searchQuery := ""; places := Some [];
  addresses := []; selectedSpot := None;
  mapService := service; searchQueryDebounceRef := None;
  mapCalls := []; clock := 0%nat; timers := ∅; nextTimer := 1%positive;
  addressLookups := []; placeLookups := []; nextPromise := 0%nat
|}.

(** ** The redux store *)

(** Modelled from the spec: the reducer of the [routes] list lives in
    [stores/reducers], which is not under src/. [addRoute] appends the point,
    [removeRoute] drops the last point and does nothing on an empty list,
    [clearRoute] drops all points. *)
Definition reduceRoutes (a : Action) (l : list RoutePoint) : list RoutePoint :=
  match a with
  | addRoute p => l ++ [p]
  | removeRoute => take (length l - 1)%nat l
  | clearRoute => []
  | _ => l
  end.

(** Modelled from the spec: the reducer of the [spots] list lives in
    [stores/reducers], which is not under src/. [addSpot] appends a spot
    with an empty title and content, [removeSpot] deletes the spot at the
    index and does nothing when the index is out of range. *)
Definition reduceSpots (a : Action) (l : list SpotModel) : list SpotModel :=
  match a with
  | addSpot p => l ++ [{| point := p; title := ""; content := "" |}]
  | removeSpot index => if 0 <=? index then delete (Z.to_nat index) l else l
  | _ => l
  end.

Definition dispatch (a : Action) (s : State) : State := {|
  routes := reduceRoutes a (routes s);
  spots := reduceSpots a (spots s);
  dispatched := dispatched s ++ [a];
  mode := mode s; searchQuery := searchQuery s; places := places s;
  addresses := addresses s; selectedSpot := selectedSpot s;
  mapService := mapService s;
  searchQueryDebounceRef := searchQueryDebounceRef s;
  mapCalls := mapCalls s; clock := clock s; timers := timers s;
  nextTimer := nextTimer s; addressLookups := addressLookups s;
  placeLookups := placeLookups s; nextPromise := nextPromise s
|}.

(** ** State setters *)

Definition setMode (m : DrawMode.t) (s : State) : State := {|
  routes := routes s; spots := spots s; dispatched := dispatched s;
  mode := m; searchQuery := searchQuery s; places := places s;
  addresses := addresses s; selectedSpot := selectedSpot s;
  mapService := mapService s;
  searchQueryDebounceRef := searchQueryDebounceRef s;
  mapCalls := mapCalls s; clock := clock s; timers := timers s;
  nextTimer := nextTimer s; addressLookups := addressLookups s;
  placeLookups := placeLookups s; nextPromise := nextPromise s
|}.

Definition setSearchQuery (q : string) (s : State) : State := {|
  routes := routes s; spots := spots s; dispatched := dispatched s;
  mode := mode s; searchQuery := q; places := places s;
  addresses := addresses s; selectedSpot := selectedSpot s;
  mapService := mapService s;
  searchQueryDebounceRef := searchQueryDebounceRef s;
  mapCalls := mapCalls s; clock := clock s; timers := timers s;
  nextTimer := nextTimer s; addressLookups := addressLookups s;
  placeLookups := placeLookups s; nextPromise := nextPromise s
|}.

Definition setPlaces (p : option (list Place)) (s : State) : State := {|
  routes := routes s; spots := spots s; dispatched := dispatched s;
  mode := mode s; searchQuery := searchQuery s; places := p;
  addresses := addresses s; selectedSpot := selectedSpot s;
  mapService := mapService s;
  searchQueryDebounceRef := searchQueryDebounceRef s;
  mapCalls := mapCalls s; clock := clock s; timers := timers s;
  nextTimer := nextTimer s; addressLookups := addressLookups s;
  placeLookups := placeLookups s; nextPromise := nextPromise s
|}.

(** [setAddresses] is always called with an updater function. *)
Definition setAddresses (f : list string -> list string) (s : State) : State := {|
  routes := routes s; spots := spots s; dispatched := dispatched s;
  mode := mode s; searchQuery := searchQuery s; places := places s;
  addresses := f (addresses s); selectedSpot := selectedSpot s;
  mapService := mapService s;
  searchQueryDebounceRef := searchQueryDebounceRef s;
  mapCalls := mapCalls s; clock := clock s; timers := timers s;
  nextTimer := nextTimer s; addressLookups := addressLookups s;
  placeLookups := placeLookups s; nextPromise := nextPromise s
|}.

Definition setSelectedSpot (f : option Z -> option Z) (s : State) : State := {|
  routes := routes s; spots := spots s; dispatched := dispatched s;
  mode := mode s; searchQuery := searchQuery s; places := places s;
  addresses := addresses s; selectedSpot := f (selectedSpot s);
  mapService := mapService s;
  searchQueryDebounceRef := searchQueryDebounceRef s;
  mapCalls := mapCalls s; clock := clock s; timers := timers s;
  nextTimer := nextTimer s; addressLookups := addressLookups s;
  placeLookups := placeLookups s; nextPromise := nextPromise s
|}.

(** ** The world: map service, timers, promises *)

(** [mapRef.current?.mapServiceRef.current?.m(...)]: the call is made only
    when the service is attached. *)
Definition callMap (c : MapCall) (s : State) : State := {|
  routes := routes s; spots := spots s; dispatched := dispatched s;
  mode := mode s; searchQuery := searchQuery s; places := places s;
  addresses := addresses s; selectedSpot := selectedSpot s;
  mapService := mapService s;
  searchQueryDebounceRef := searchQueryDebounceRef s;
  mapCalls := if mapService s then mapCalls s ++ [c] else mapCalls s;
  clock := clock s; timers := timers s;
  nextTimer := nextTimer s; addressLookups := addressLookups s;
  placeLookups := placeLookups s; nextPromise := nextPromise s
|}.

Definition clearTimeout (t : positive) (s : State) : State := {|
  routes := routes s; spots := spots s; dispatched := dispatched s;
  mode := mode s; searchQuery := searchQuery s; places := places s;
  addresses := addresses s; selectedSpot := selectedSpot s;
  mapService := mapService s;
  searchQueryDebounceRef := searchQueryDebounceRef s;
  mapCalls := mapCalls s; clock := clock s; timers := delete t (timers s);
  nextTimer := nextTimer s; addressLookups := addressLookups s;
  placeLookups := placeLookups s; nextPromise := nextPromise s
|}.

(** [searchQueryDebounceRef.current = setTimeout(callback, delay)], where
    the callback closed over [v]. *)
Definition setTimeout (v : string) (delay : nat) (s : State) : State := {|
  routes := routes s; spots := spots s; dispatched := dispatched s;
  mode := mode s; searchQuery := searchQuery s; places := places s;
  addresses := addresses s; selectedSpot := selectedSpot s;
  mapService := mapService s;
  searchQueryDebounceRef := Some (nextTimer s);
  mapCalls := mapCalls s; clock := clock s;
  timers := <[nextTimer s := {| due := (clock s + delay)%nat; value := v |}]> (timers s);
  nextTimer := Pos.succ (nextTimer s); addressLookups := addressLookups s;
  placeLookups := placeLookups s; nextPromise := nextPromise s
|}.

Definition elapse (ms : nat) (s : State) : State := {|
  routes := routes s; spots := spots s; dispatched := dispatched s;
  mode := mode s; searchQuery := searchQuery s; places := places s;
  addresses := addresses s; selectedSpot := selectedSpot s;
  mapService := mapService s;
  searchQueryDebounceRef := searchQueryDebounceRef s;
  mapCalls := mapCalls s; clock := (clock s + ms)%nat; timers := timers s;
  nextTimer := nextTimer s; addressLookups := addressLookups s;
  placeLookups := placeLookups s; nextPromise := nextPromise s
|}.

Definition setAddressLookups (l : list (Lookup RoutePoint)) (n : nat) (s : State) : State := {|
  routes := routes s; spots := spots s; dispatched := dispatched s;
  mode := mode s; searchQuery := searchQuery s; places := places s;
  addresses := addresses s; selectedSpot := selectedSpot s;
  mapService := mapService s;
  searchQueryDebounceRef := searchQueryDebounceRef s;
  mapCalls := mapCalls s; clock := clock s; timers := timers s;
  nextTimer := nextTimer s; addressLookups := l;
  placeLookups := placeLookups s; nextPromise := n
|}.

Definition setPlaceLookups (l : list (Lookup string)) (n : nat) (s : State) : State := {|
  routes := routes s; spots := spots s; dispatched := dispatched s;
  mode := mode s; searchQuery := searchQuery s; places := places s;
  addresses := addresses s; selectedSpot := selectedSpot s;
  mapService := mapService s;
  searchQueryDebounceRef := searchQueryDebounceRef s;
  mapCalls := mapCalls s; clock := clock s; timers := timers s;
  nextTimer := nextTimer s; addressLookups := addressLookups s;
  placeLookups := l; nextPromise := n
|}.

(** The first lookup in flight with the given promise id, and the list
    without it. *)
Fixpoint takeLookup {A} (n : nat) (l : list (Lookup A)) : option (Lookup A * list (Lookup A)) :=
  match l with
  | [] => None
  | k :: l' =>
      if Nat.eqb (promise k) n then Some (k, l')
      else match takeLookup n l' with
           | Some (k', rest) => Some (k', k :: rest)
           | None => None
           end
  end.

(** [catch (error) { /* empty handler */ }]. *)
Definition catchEmpty (s : State) (c : Completion State) : State :=
  match c with
  | Normal s' => s'
  | Thrown => s
  end.

(** ** JavaScript helpers *)

(** lodash's [isEmpty] on a string. *)
Definition isEmpty (v : string) : bool :=
  match v with
  | EmptyString => true
  | String _ _ => false
  end.

(** [a ?? b]. *)
Definition nullish {A} (a b : option A) : option A :=
  match a with
  | Some _ => a
  | None => b
  end.

(** Truthiness of a string that may be [undefined]. *)
Definition truthy (v : option string) : bool :=
  match v with
  | Some v => negb (isEmpty v)
  | None => false
  end.

(** [Array.prototype.slice]: a negative index counts from the end, and both
    indices are clamped to the array. *)
Definition sliceIndex (len k : Z) : Z :=
  if k <? 0 then Z.max (len + k) 0 else Z.min k len.

Definition slice {A} (l : list A) (from to : Z) : list A :=
  let len := Z.of_nat (length l) in
  let k := sliceIndex len from in
  let final := sliceIndex len to in
  take (Z.to_nat (final - k)) (drop (Z.to_nat k) l).

(** The template literal of [handkleClickMap]:
    [`${address}${region ? ` (${region})` : ''}`]. *)
Definition displayAddress (result : list AddressResult) : string :=
  let first : option AddressResult := head result in
  let region : option string := (first ≫= address) ≫= region_3depth_name in
  let address : string :=
    default ""
      (nullish ((first ≫= road_address) ≫= address_name)
               (nullish ((first ≫= address) ≫= address_name) (Some ""))) in
  address +:+ (if truthy region then " (" +:+ default "" region +:+ ")" else "").

(** ** Handlers *)

Definition handleClickMode (selectedMode : DrawMode.t) (s : State) : State :=
  setMode selectedMode s.

(** The callback [handleChangeSearchQuery] hands to [setTimeout], up to its
    [await]. *)
Definition searchPlaces_try (searchedPlaces : Settled (list Place)) (s : State)
  : Completion State :=
  match searchedPlaces with
  | Rejected => Thrown
  | Fulfilled v => Normal (setPlaces v s)
  end.

Definition debounced (value : string) (s : State) : State :=
  if isEmpty value then s
  else if mapService s then
    setPlaceLookups
      (placeLookups s ++ [Build_Lookup (nextPromise s) value])
      (S (nextPromise s))
      (callMap (searchPlaces value) s)
  else catchEmpty s (searchPlaces_try (Fulfilled None) s).

Definition handleChangeSearchQuery (value : string) (s : State) : State :=
  let s := setSearchQuery value s in
  let s :=
    match searchQueryDebounceRef s with
    | Some t => clearTimeout t s
    | None => s
    end in
  setTimeout value 500 s.

(** The rest of [handkleClickMap] after [await searchAddress(...)]. Indexing
    [undefined] throws. *)
Definition searchAddress_try (result : Settled (list AddressResult)) (s : State)
  : Completion State :=
  match result with
  | Rejected => Thrown
  | Fulfilled None => Thrown
  | Fulfilled (Some result) =>
      Normal (setAddresses (fun prev => prev ++ [displayAddress result]) s)
  end.

Definition handkleClickMap (latitude longitude : float) (s : State) : State :=
  match mode s with
  | DrawMode.Road =>
      let s := dispatch (addRoute {| latitude := latitude; longitude := longitude |}) s in
      let s := callMap (drawLine latitude longitude) s in
      if mapService s then
        setAddressLookups
          (addressLookups s ++
             [Build_Lookup (nextPromise s)
                {| latitude := latitude; longitude := longitude |}])
          (S (nextPromise s))
          (callMap (searchAddress latitude longitude) s)
      else catchEmpty s (searchAddress_try (Fulfilled None) s)
  | DrawMode.Spot =>
      let s := dispatch (addSpot {| latitude := latitude; longitude := longitude |}) s in
      callMap (addMarker latitude longitude) s
  end.

Definition handleClickClearRoad (s : State) : State :=
  let s := dispatch clearRoute s in
  let s := setAddresses (fun _ => []) s in
  callMap removeAllLines s.

Definition handleClickRevertRoad (s : State) : State :=
  let s := dispatch removeRoute s in
  let s := setAddresses (fun prev => slice prev 0 (Z.of_nat (length prev) - 1)) s in
  callMap removeLastLine s.

Definition handleClickSpot (spot : SpotModel) (index : Z) (s : State) : State :=
  let s := callMap (moveTo (latitude (point spot)) (longitude (point spot))) s in
  setSelectedSpot (fun _ => Some index) s.

(** The handler compares [index] with the [selectedSpot] of its closure;
    the updater [prev => prev! - 1] reads the state as the earlier updates of
    the handler left it. *)
Definition handleRemoveSpot (index : Z) (s : State) : State :=
  let selected := selectedSpot s in
  let s :=
    match selected with
    | Some selected =>
        let s := if index =? selected then setSelectedSpot (fun _ => None) s else s in
        if index <? selected
        then setSelectedSpot (fun prev => (fun prev => prev - 1) <$> prev) s
        else s
    | None => s
    end in
  let s := dispatch (removeSpot index) s in
  callMap (removeMarker index) s.

(** The effect with dependencies [[dispatch, routes]]. *)
Definition routesEffect (s : State) : State :=
  if (length (routes s) =? 1)%nat then
    match routes s !! 0%nat with
    | Some firstRoutes =>
        let s := dispatch (requestGetPlaces firstRoutes) s in
        callMap removeCurrentLocationMarker s
    | None => s
    end
  else s.

(** The render that follows a handler: the effect runs when [routes] is a
    new list. The route actions either change the length of the list or
    leave the list as it is, so the list is new exactly when its length is. *)
Definition render (before : State) (s : State) : State :=
  if (length (routes before) =? length (routes s))%nat then s
  else routesEffect s.

(** ** The event loop *)

Inductive Event :=
| ClickMode (selectedMode : DrawMode.t)
| ChangeSearchQuery (value : string)
| ClickMap (latitude longitude : float)
| ClickClearRoad
| ClickRevertRoad
| ClickSpot (spot : SpotModel) (index : Z)
| RemoveSpot (index : Z)
| Elapse (ms : nat)
| Timeout (t : positive)
| AddressSettled (promise : nat) (result : Settled (list AddressResult))
| PlacesSettled (promise : nat) (searchedPlaces : Settled (list Place)).

(** A timer fires when it is pending and due; the timer leaves the table
    and its callback runs. *)
Definition fire (t : positive) (s : State) : State :=
  match timers s !! t with
  | Some timer =>
      if (due timer <=? clock s)%nat
      then debounced (value timer) (clearTimeout t s)
      else s
  | None => s
  end.

Definition settleAddress (n : nat) (result : Settled (list AddressResult)) (s : State)
  : State :=
  match takeLookup n (addressLookups s) with
  | Some (_, rest) =>
      let s := setAddressLookups rest (nextPromise s) s in
      catchEmpty s (searchAddress_try result s)
  | None => s
  end.

Definition settlePlaces (n : nat) (searchedPlaces : Settled (list Place)) (s : State)
  : State :=
  match takeLookup n (placeLookups s) with
  | Some (_, rest) =>
      let s := setPlaceLookups rest (nextPromise s) s in
      catchEmpty s (searchPlaces_try searchedPlaces s)
  | None => s
  end.

Definition handle (e : Event) (s : State) : State :=
  match e with
  | ClickMode m => handleClickMode m s
  | ChangeSearchQuery v => handleChangeSearchQuery v s
  | ClickMap lat lon => handkleClickMap lat lon s
  | ClickClearRoad => handleClickClearRoad s
  | ClickRevertRoad => handleClickRevertRoad s
  | ClickSpot spot index => handleClickSpot spot index s
  | RemoveSpot index => handleRemoveSpot index s
  | Elapse ms => elapse ms s
  | Timeout t => fire t s
  | AddressSettled n r => settleAddress n r s
  | PlacesSettled n r => settlePlaces n r s
  end.

Definition step (s : State) (e : Event) : State := render s (handle e s).

Definition run (s : State) (es : list Event) : State := fold_left step es s.

(** ** Invariants, predicates on runs and scenarios *)

(** The answer of the geocoder in the scenario of the specification. *)
Definition teheranRo : list AddressResult :=
  [ {| road_address :=
         Some {| address_name := Some "Teheran-ro 1"; region_3depth_name := None |};
       address :=
         Some {| address_name := Some "Yeoksam-dong 1";
                 region_3depth_name := Some "Gangnam-gu" |} |} ].

(** A tap on the map of an empty road, reverted while its lookup is in
    flight. *)
Definition tappedAndReverted : State :=
  run (init true) [ClickMap 37.5%float 127.03125%float; ClickRevertRoad].

Definition cafe : Place := {|
  id := "8231"; place_name := "Cafe Teheran";
  road_address_name := "Teheran-ro 1"; x := 127.03125; y := 37.5
|}.

(** A road of one point whose address is being looked up. *)
Definition tapped : State :=
  run (init true) [ClickMap 37.5%float 127.03125%float].

(** A search that found a place, and a second search in flight. *)
Definition searchingAgain : State :=
  run (init true)
    [ChangeSearchQuery "cafe"; Elapse 500; Timeout 1;
     PlacesSettled 0 (Fulfilled (Some [cafe]));
     ChangeSearchQuery "cafes"; Elapse 500; Timeout 2].

Definition spotA : SpotModel :=
  {| point := {| latitude := 37.5; longitude := 127.0 |}; title := ""; content := "" |}.
Definition spotB : SpotModel :=
  {| point := {| latitude := 37.25; longitude := 127.5 |}; title := ""; content := "" |}.

(** Two spots on the map, the second one selected. *)
Definition secondSpotSelected : State :=
  run (init true)
    [ClickMode DrawMode.Spot; ClickMap 37.5%float 127.0%float;
     ClickMap 37.25%float 127.5%float; ClickSpot spotB 1].

(** A road of two points. *)
Definition twoPoints : State :=
  run (init true)
    [ClickMap 37.5%float 127.03125%float; ClickMap 37.25%float 127.5%float].

(** The only timer that can be pending is the one the ref points to. *)
Definition timersInv (s : State) : Prop :=
  map_Forall (fun t _ => searchQueryDebounceRef s = Some t) (timers s).

#[global] Instance timersInv_dec (s : State) : Decision (timersInv s).
Proof. unfold timersInv. apply _. Defined.

(** The first search is in flight when the same text is typed again. *)
Definition retypedInFlight : State :=
  run (init true)
    [ChangeSearchQuery "cafe"; Elapse 500; Timeout 1; ChangeSearchQuery "cafe"].

(** A search in flight and a timer pending. *)
Definition searchInFlight : State :=
  run (init true)
    [ChangeSearchQuery "cafe"; Elapse 500; Timeout 1; ChangeSearchQuery "cafes"].

(** A search that has found a place. *)
Definition found : State :=
  run (init true)
    [ChangeSearchQuery "cafe"; Elapse 500; Timeout 1;
     PlacesSettled 0 (Fulfilled (Some [cafe]))].

(** The texts the component has passed to [searchPlaces], oldest first. *)
Definition searchedTexts (s : State) : list string :=
  omap (fun c => match c with searchPlaces v => Some v | _ => None end) (mapCalls s).


(** Three calls of [handleChangeSearchQuery], with other events between
    them. *)
Definition typedThrice (s : State) (v1 : string) (es1 : list Event) (v2 : string)
  (es2 : list Event) (v3 : string) : State :=
  run s (ChangeSearchQuery v1 :: es1 ++ ChangeSearchQuery v2 :: es2
           ++ [ChangeSearchQuery v3]).


(** Typing "c", "ca", "caf" at 0, 100 and 300 ms into a fresh session. *)
Definition typedCaf : State :=
  typedThrice (init true) "c" [Elapse 100] "ca" [Elapse 200] "caf".


(** A first keystroke: one timer pending and nothing in flight. *)
Definition typedOnce : State :=
  run (init true) [ChangeSearchQuery "c"].

(** Two spots on the map and none selected. *)
Definition twoSpots : State :=
  run (init true)
    [ClickMode DrawMode.Spot; ClickMap 37.5%float 127.0%float;
     ClickMap 37.25%float 127.5%float].

(** The clear and revert buttons are pressed only while no reverse geocoding
    is in flight. *)
Definition settledBefore (s : State) (e : Event) : Prop :=
  match e with
  | ClickClearRoad | ClickRevertRoad => addressLookups s = []
  | _ => True
  end.

Fixpoint patient (s : State) (es : list Event) : Prop :=
  match es with
  | [] => True
  | e :: es => settledBefore s e /\ patient (step s e) es
  end.

Section Geocoder.

(** What the geocoder answers for a point. *)
Variable geocoder : RoutePoint -> list AddressResult.

(** Every reverse geocoding that settles is the oldest one in flight and
    resolves to the answer of the geocoder for its point. *)
Definition answered (s : State) (e : Event) : Prop :=
  match e with
  | AddressSettled n r =>
      exists k rest,
        addressLookups s = k :: rest /\ n = promise k /\
        r = Fulfilled (Some (geocoder (request k)))
  | _ => True
  end.

Fixpoint inOrder (s : State) (es : list Event) : Prop :=
  match es with
  | [] => True
  | e :: es => answered s e /\ inOrder (step s e) es
  end.

(** The addresses are those of the first route points, and the remaining
    route points are the ones being looked up, in order. *)
Definition aligned (s : State) : Prop :=
  mapService s = true /\
  exists done : list RoutePoint,
    routes s = done ++ (request <$> addressLookups s) /\
    addresses s = (fun p => displayAddress (geocoder p)) <$> done.

End Geocoder.

(** The addresses and the lookups in flight never outnumber the route
    points. *)
Definition bounded (s : State) : Prop :=
  (length (addresses s) + length (addressLookups s) <= length (routes s))%nat.

(** A second answer of the geocoder. *)
Definition seolleungRo : list AddressResult :=
  [ {| road_address := None;
       address :=
         Some {| address_name := Some "Seolleung-ro 2";
                 region_3depth_name := Some "Yeoksam-dong" |} |} ].

(** A geocoder with two answers. *)
Definition twoAnswers (p : RoutePoint) : list AddressResult :=
  if PrimFloat.eqb (latitude p) 37.5 then teheranRo else seolleungRo.

(** Two taps answered in order, a third tap answered and reverted. *)
Definition orderlySession : list Event :=
  [ClickMap 37.5%float 127.03125%float; ClickMap 37.25%float 127.5%float;
   AddressSettled 0 (Fulfilled (Some teheranRo));
   AddressSettled 1 (Fulfilled (Some seolleungRo));
   ClickMap 37.5%float 127.0%float;
   AddressSettled 2 (Fulfilled (Some teheranRo));
   ClickRevertRoad].

(** ** What a session keeps *)

(** The selected spot, when there is one, is a spot of the list. *)
Definition validSelection (s : State) : Prop :=
  match selectedSpot s with
  | Some j => 0 <= j < Z.of_nat (length (spots s))
  | None => True
  end.

(** [handleClickSpot] and [handleRemoveSpot] are attached to the spots the
    component renders with [spots.map((spot, index) => ...)]: they receive a
    spot of the list and its index. *)
Definition ofRenderedSpot (s : State) (e : Event) : Prop :=
  match e with
  | ClickSpot spot index => 0 <= index /\ spots s !! Z.to_nat index = Some spot
  | RemoveSpot index => 0 <= index < Z.of_nat (length (spots s))
  | _ => True
  end.

Fixpoint onRenderedSpots (s : State) (es : list Event) : Prop :=
  match es with
  | [] => True
  | e :: es => ofRenderedSpot s e /\ onRenderedSpots (step s e) es
  end.

(** The call on the map service that the handlers pair with an action on the
    road or on the spots. *)
Definition mirror (a : Action) : option MapCall :=
  match a with
  | addRoute p => Some (drawLine (latitude p) (longitude p))
  | removeRoute => Some removeLastLine
  | clearRoute => Some removeAllLines
  | addSpot p => Some (addMarker (latitude p) (longitude p))
  | removeSpot index => Some (removeMarker index)
  | requestGetPlaces _ => None
  end.

(** The calls that draw on the map. *)
Definition drawing (c : MapCall) : option MapCall :=
  match c with
  | drawLine _ _ | addMarker _ _ | removeAllLines | removeLastLine
  | removeMarker _ => Some c
  | moveTo _ _ | removeCurrentLocationMarker | searchAddress _ _
  | searchPlaces _ => None
  end.

(** A road of one point whose address has arrived. *)
Definition onePointSettled : State :=
  run (init true)
    [ClickMap 37.5%float 127.03125%float;
     AddressSettled 0 (Fulfilled (Some teheranRo))].

(** ** Effects on mount *)

(** The effect with no dependency that asks for the places around the first
    route point of a road opened for editing. *)
Definition firstRoutesEffect (s : State) : State :=
  match routes s !! 0%nat with
  | Some firstRoutes => dispatch (requestGetPlaces firstRoutes) s
  | None => s
  end.

(** On mount every effect runs, in the order of the source; these are the
    two that dispatch to the store. *)
Definition mountEffects (s : State) : State :=
  firstRoutesEffect (routesEffect s).

(** ** MakeRoad: submitting the road

    [src/components/templates/MakeRoad.tsx] selects the road and the spots
    from the store [DrawRoad] writes to, and builds the request of the
    submission from them. *)

Section MakeRoad.

(** The types of these fields of the store are declared in [stores], which
    is not under src/; [handleSubmit] passes their values on as they are. *)
Variables CategoryId PlaceCode HashTag Image Distance : Type.

(** What [MakeRoad] selects from the store for the submission. *)
Record EditState := {
  getTitle : string;
  getContent : string;
  getDistance : Distance;
  getHashTags : list HashTag;
  getRoutes : list RoutePoint;
  getSpots : list SpotModel;
  getImages : list Image;
  getCategoryId : CategoryId;
  getPlaceCode : PlaceCode
}.

(** A spot of the payload; [spot_point] is [[longitude, latitude]]. *)
Record SpotPayload := {
  spot_title : string;
  spot_content : string;
  spot_point : float * float
}.

(** The payload of a submission. [payload_roadId] is [None] in the payload
    of [requestCreateRoad], which has no [roadId] member; an entry of
    [payload_routes] is [[longitude, latitude]]. *)
Record Payload := {
  payload_roadId : option string;
  payload_title : string;
  payload_content : string;
  payload_distance : Z;
  payload_categoryId : CategoryId;
  payload_routes : list (float * float);
  payload_placeCode : PlaceCode;
  payload_spots : list SpotPayload;
  payload_hashtags : list HashTag;
  payload_images : list Image
}.

Inductive EditRequest :=
| requestUpdateRoad (payload : Payload)
| requestCreateRoad (payload : Payload).

Definition payloadOf (r : EditRequest) : Payload :=
  match r with
  | requestUpdateRoad payload | requestCreateRoad payload => payload
  end.

(** The action [handleSubmit] dispatches, for the [roadId] the component
    holds. *)
Definition handleSubmit (roadId : string) (st : EditState) : EditRequest :=
  if negb (String.eqb roadId "new") then
    requestUpdateRoad {|
      payload_roadId := Some roadId;
      payload_title := getTitle st;
      payload_content := getContent st;
      payload_distance := 3;
      payload_categoryId := getCategoryId st;
      payload_routes := (fun route => (longitude route, latitude route)) <$> getRoutes st;
      payload_placeCode := getPlaceCode st;
      payload_spots :=
        (fun spot => {| spot_title := title spot;
                        spot_content := content spot;
                        spot_point := (longitude (point spot), latitude (point spot)) |})
          <$> getSpots st;
      payload_hashtags := getHashTags st;
      payload_images := getImages st
    |}
  else
    requestCreateRoad {|
      payload_roadId := None;
      payload_title := getTitle st;
      payload_content := getContent st;
      payload_distance := 3;
      payload_categoryId := getCategoryId st;
      payload_routes := (fun route => (longitude route, latitude route)) <$> getRoutes st;
      payload_placeCode := getPlaceCode st;
      payload_spots :=
        (fun spot => {| spot_title := title spot;
                        spot_content := content spot;
                        spot_point := (longitude (point spot), latitude (point spot)) |})
          <$> getSpots st;
      payload_hashtags := getHashTags st;
      payload_images := getImages st
    |}.

(** The effect that reads the [roadId] query parameter on mount: the state
    is set when the parameter is present ([None] is a parameter that is
    missing). *)
Definition roadIdEffect (roadIdFromQueryParam : option string) (roadId : string)
  : string :=
  match roadIdFromQueryParam with
  | Some v => v
  | None => roadId
  end.

(** The [roadId] the component holds after mount: [useState('')] and then
    the effect. *)
Definition mountedRoadId (roadIdFromQueryParam : option string) : string :=
  roadIdEffect roadIdFromQueryParam "".

(** The store after a drawing session: both components select [routes] and
    [spots] from the same store. *)
Definition afterDrawing (st : EditState) (s : State) : EditState := {|
  getTitle := getTitle st;
  getContent := getContent st;
  getDistance := getDistance st;
  getHashTags := getHashTags st;
  getRoutes := routes s;
  getSpots := spots s;
  getImages := getImages st;
  getCategoryId := getCategoryId st;
  getPlaceCode := getPlaceCode st
|}.

End MakeRoad.

Arguments getTitle {_ _ _ _ _} _.
Arguments getContent {_ _ _ _ _} _.
Arguments getDistance {_ _ _ _ _} _.
Arguments getHashTags {_ _ _ _ _} _.
Arguments getRoutes {_ _ _ _ _} _.
Arguments getSpots {_ _ _ _ _} _.
Arguments getImages {_ _ _ _ _} _.
Arguments getCategoryId {_ _ _ _ _} _.
Arguments getPlaceCode {_ _ _ _ _} _.
Arguments payload_roadId {_ _ _ _} _.
Arguments payload_title {_ _ _ _} _.
Arguments payload_content {_ _ _ _} _.
Arguments payload_distance {_ _ _ _} _.
Arguments payload_categoryId {_ _ _ _} _.
Arguments payload_routes {_ _ _ _} _.
Arguments payload_placeCode {_ _ _ _} _.
Arguments payload_spots {_ _ _ _} _.
Arguments payload_hashtags {_ _ _ _} _.
Arguments payload_images {_ _ _ _} _.
Arguments requestUpdateRoad {_ _ _ _} _.
Arguments requestCreateRoad {_ _ _ _} _.
Arguments payloadOf {_ _ _ _} _.
Arguments handleSubmit {_ _ _ _ _} _ _.
Arguments afterDrawing {_ _ _ _ _} _ _.

(** The store of a road of two points and two spots. *)
Definition drawnStore : EditState Z string string string Z := {|
  getTitle := "Teheran-ro walk"; getContent := "";
  getDistance := 0; getHashTags := ["walk"];
  getRoutes := routes twoPoints; getSpots := [spotA; spotB];
  getImages := []; getCategoryId := 1; getPlaceCode := "11680"
|}.

(** The events that draw: they act on the road, on the spots or on the
    mode. *)
Definition draws (e : Event) : bool :=
  match e with
  | ClickMode _ | ClickMap _ _ | ClickClearRoad | ClickRevertRoad
  | RemoveSpot _ => true
  | ChangeSearchQuery _ | ClickSpot _ _ | Elapse _ | Timeout _
  | AddressSettled _ _ | PlacesSettled _ _ => false
  end.

(** Two states with the same road, spots and mode. *)
Definition sameDrawing (a b : State) : Prop :=
  routes a = routes b /\ spots a = spots b /\ mode a = mode b.

(** ** What is rendered *)

(** The content of [LeftRouteContent]: the texts for the departure and the
    arrival, or the [RouteCircle] element. *)
Inductive RouteMark := departure | arrival | RouteCircle.

(** A row of [RouteList]: whether an [EmptyRouteSpace] comes before it, its
    mark and the text of its [Route]. *)
Record RouteRow := { spaceAbove : bool; mark : RouteMark; route : string }.

(** The callback of [addresses.map((address, index) => ...)]. *)
Definition routeRow (addresses : list string) (index : nat) (address : string)
  : RouteRow := {|
  spaceAbove := negb (Z.of_nat index =? 0);
  mark :=
    if Z.of_nat index =? 0 then departure
    else if Z.of_nat index =? Z.of_nat (length addresses) - 1 then arrival
    else RouteCircle;
  route := address
|}.

(** [routes.size !== 0 && <RouteList>...</RouteList>]: [None] when the list
    is not rendered. *)
Definition RouteList (s : State) : option (list RouteRow) :=
  if (length (routes s) =? 0)%nat then None
  else Some (imap (routeRow (addresses s)) (addresses s)).

(** A row of [SpotList]: the [active] property of the [Spot] element and the
    spot it shows. *)
Record SpotRow := { active : bool; shown : SpotModel }.

(** [spots.map((spot, index) => <Spot active={selectedSpot === index} ...>)]. *)
Definition SpotList (s : State) : list SpotRow :=
  imap
    (fun index spot =>
       {| active :=
            match selectedSpot s with
            | Some selected => selected =? Z.of_nat index
            | None => false
            end;
          shown := spot |})
    (spots s).

(** The place searches of a run all resolve to a list. *)
Definition resolvesToList (e : Event) : Prop :=
  match e with
  | PlacesSettled _ (Fulfilled None) => False
  | _ => True
  end.

(** ** Frame lemmas *)

Lemma render_frame before s :
  routes (render before s) = routes s /\
  spots (render before s) = spots s /\
  mode (render before s) = mode s /\
  searchQuery (render before s) = searchQuery s /\
  places (render before s) = places s /\
  addresses (render before s) = addresses s /\
  selectedSpot (render before s) = selectedSpot s /\
  mapService (render before s) = mapService s /\
  searchQueryDebounceRef (render before s) = searchQueryDebounceRef s /\
  clock (render before s) = clock s /\
  timers (render before s) = timers s /\
  nextTimer (render before s) = nextTimer s /\
  addressLookups (render before s) = addressLookups s /\
  placeLookups (render before s) = placeLookups s /\
  nextPromise (render before s) = nextPromise s.
Proof.
  unfold render, routesEffect.
  destruct (length (routes before) =? length (routes s))%nat; [repeat split|].
  destruct (length (routes s) =? 1)%nat; [|repeat split].
  destruct (routes s !! 0%nat); repeat split.
Qed.

Lemma slice_init {A} (l : list A) :
  slice l 0 (Z.of_nat (length l) - 1) = take (length l - 1)%nat l.
Proof.
  unfold slice, sliceIndex.
  destruct l as [|a l]; [reflexivity|].
  rewrite length_cons.
  replace (Z.of_nat (S (length l)) - 1) with (Z.of_nat (length l)) by lia.
  destruct (Z.ltb_spec (Z.of_nat (length l)) 0); [lia|].
  change (0 <? 0) with false. cbv iota.
  rewrite (Z.min_l 0), (Z.min_l (Z.of_nat (length l))) by lia.
  change (Z.to_nat 0) with 0%nat. rewrite drop_0.
  f_equal. lia.
Qed.

Lemma takeLookup_head {A} (k : Lookup A) (l : list (Lookup A)) :
  takeLookup (promise k) (k :: l) = Some (k, l).
Proof. cbn. now rewrite Nat.eqb_refl. Qed.

Lemma takeLookup_length {A} n (l rest : list (Lookup A)) k :
  takeLookup n l = Some (k, rest) -> length l = S (length rest).
Proof.
  revert rest; induction l as [|k' l IH]; intros rest; cbn; [discriminate|].
  destruct (Nat.eqb (promise k') n).
  - intros [= _ <-]. reflexivity.
  - destruct (takeLookup n l) as [[k'' rest']|]; [|discriminate].
    intros [= -> <-]. cbn. f_equal. now apply IH.
Qed.

(** ** Reverse geocoding *)

Example displayAddress_teheranRo :
  displayAddress teheranRo = "Teheran-ro 1 (Gangnam-gu)".
Proof. reflexivity. Qed.

Example displayAddress_empty : displayAddress [] = "".
Proof. reflexivity. Qed.

(** C1, counterexample: the route point of the lookup has been reverted (the
    road is empty again and the lookup is still in flight), and the late
    answer is appended to the addresses all the same. *)
Lemma stale_address_is_applied :
  routes tappedAndReverted = [] /\
  addresses tappedAndReverted = [] /\
  takeLookup 0 (addressLookups tappedAndReverted)
    = Some (Build_Lookup 0%nat {| latitude := 37.5; longitude := 127.03125 |}, []) /\
  addresses (step tappedAndReverted (AddressSettled 0 (Fulfilled (Some teheranRo))))
    = ["Teheran-ro 1 (Gangnam-gu)"] /\
  addresses (step tappedAndReverted (AddressSettled 0 (Fulfilled (Some teheranRo))))
    <> addresses tappedAndReverted.
Proof. repeat split; try reflexivity. discriminate. Qed.

(** C1, amended: a reverse geocoding that succeeds is applied without any
    check of the route: whatever [routes] holds when the answer arrives, also
    when the point of the lookup has been reverted, the composed address is
    appended at the end of [addresses], and [routes] is left as it is. *)
Theorem address_applied_whatever_the_route
  (s : State) (n : nat) (k : Lookup RoutePoint) (rest : list (Lookup RoutePoint))
  (result : list AddressResult) :
  takeLookup n (addressLookups s) = Some (k, rest) ->
  addresses (step s (AddressSettled n (Fulfilled (Some result))))
    = addresses s ++ [displayAddress result] /\
  routes (step s (AddressSettled n (Fulfilled (Some result)))) = routes s /\
  addressLookups (step s (AddressSettled n (Fulfilled (Some result)))) = rest.
Proof.
  intros Hk. unfold step.
  destruct (render_frame s (handle (AddressSettled n (Fulfilled (Some result))) s))
    as (-> & _ & _ & _ & _ & -> & _ & _ & _ & _ & _ & _ & -> & _).
  cbn. unfold settleAddress. rewrite Hk. cbn. auto.
Qed.

Lemma address_applied_whatever_the_route_witness :
  addresses (step tappedAndReverted (AddressSettled 0 (Fulfilled (Some teheranRo))))
    = addresses tappedAndReverted ++ [displayAddress teheranRo] /\
  routes (step tappedAndReverted (AddressSettled 0 (Fulfilled (Some teheranRo))))
    = routes tappedAndReverted /\
  addressLookups (step tappedAndReverted (AddressSettled 0 (Fulfilled (Some teheranRo))))
    = [].
Proof.
  apply (address_applied_whatever_the_route tappedAndReverted 0
           (Build_Lookup 0%nat {| latitude := 37.5; longitude := 127.03125 |}) []).
  reflexivity.
Defined.

(** ** How a step acts on each part of the state *)

(** Splits the conditionals of the handlers. *)
Ltac split_handler :=
  repeat match goal with
    | |- context [match ?x with _ => _ end] =>
        lazymatch x with
        | context [match _ with _ => _ end] => fail
        | _ => destruct x eqn:?
        end
    end.

Ltac unfold_handlers :=
  unfold handle, handleClickMode, handleChangeSearchQuery, handkleClickMap,
    handleClickClearRoad, handleClickRevertRoad, handleClickSpot,
    handleRemoveSpot, fire, debounced, settleAddress, settlePlaces,
    catchEmpty, searchAddress_try, searchPlaces_try.

Lemma step_same_routes s e :
  length (routes (handle e s)) = length (routes s) -> step s e = handle e s.
Proof.
  intros H. unfold step, render. rewrite H, Nat.eqb_refl. reflexivity.
Qed.

Lemma step_mapService s e : mapService (step s e) = mapService s.
Proof.
  unfold step.
  destruct (render_frame s (handle e s)) as (_ & _ & _ & _ & _ & _ & _ & -> & _).
  destruct e; unfold_handlers; cbn; split_handler; cbn; congruence.
Qed.





Lemma run_cons s e es : run s (e :: es) = run (step s e) es.
Proof. reflexivity. Qed.

(** With the map service detached no call reaches it. *)
Lemma detached_step s e :
  mapService s = false -> mapCalls (step s e) = mapCalls s.
Proof.
  intros Hsvc.
  destruct e as [m|v|lat lon| | |spot index|index|ms|t|n r|n r];
    unfold step, render, routesEffect; unfold_handlers; cbn;
    rewrite ?Hsvc; cbn; split_handler; cbn; rewrite ?Hsvc; reflexivity.
Qed.

Lemma detached_run es : forall s,
  mapService s = false -> mapCalls (run s es) = mapCalls s.
Proof.
  induction es as [|e es IH]; intros s Hsvc; [reflexivity|].
  rewrite run_cons, IH by (rewrite step_mapService; exact Hsvc).
  apply detached_step, Hsvc.
Qed.

(** ** Lookups that fail *)

(** C3, counterexample: a rejected reverse geocoding appends no placeholder
    (the road has one point and no address, with nothing left in flight),
    and a rejected place search leaves the places found earlier in place. *)
Lemma rejected_lookup_leaves_no_placeholder :
  length (routes (step tapped (AddressSettled 0 Rejected))) = 1%nat /\
  addressLookups (step tapped (AddressSettled 0 Rejected)) = [] /\
  addresses (step tapped (AddressSettled 0 Rejected)) = [] /\
  addresses (step tapped (AddressSettled 0 Rejected)) <> [""] /\
  placeLookups (step searchingAgain (PlacesSettled 1 Rejected)) = [] /\
  places (step searchingAgain (PlacesSettled 1 Rejected)) = Some [cafe] /\
  places (step searchingAgain (PlacesSettled 1 Rejected)) <> Some [].
Proof. repeat split; try reflexivity; discriminate. Qed.

(** C3, amended: a lookup that fails never stops the session, the failure
    is caught and dropped. A reverse geocoding that is rejected leaves
    [addresses] as it is (no placeholder), and only the lookup leaves the
    list of lookups in flight; one that resolves to an empty list appends the
    empty string. A place search that is rejected leaves [places] as it is;
    one that resolves to an empty list sets [places] to the empty list. *)
Theorem failed_lookup_is_dropped (s : State) :
  (forall n,
     addresses (step s (AddressSettled n Rejected)) = addresses s /\
     places (step s (PlacesSettled n Rejected)) = places s) /\
  (forall n k rest,
     takeLookup n (addressLookups s) = Some (k, rest) ->
     step s (AddressSettled n Rejected) = setAddressLookups rest (nextPromise s) s /\
     addresses (step s (AddressSettled n (Fulfilled (Some [])))) = addresses s ++ [""]) /\
  (forall m k rest,
     takeLookup m (placeLookups s) = Some (k, rest) ->
     step s (PlacesSettled m Rejected) = setPlaceLookups rest (nextPromise s) s /\
     places (step s (PlacesSettled m (Fulfilled (Some [])))) = Some []).
Proof.
  assert (Ha : forall n r, step s (AddressSettled n r) = settleAddress n r s).
  { intros n r. apply step_same_routes. cbn. unfold settleAddress.
    destruct (takeLookup n (addressLookups s)) as [[k rest]|]; [|reflexivity].
    destruct r as [[result|]|]; reflexivity. }
  assert (Hp : forall m r, step s (PlacesSettled m r) = settlePlaces m r s).
  { intros m r. apply step_same_routes. cbn. unfold settlePlaces.
    destruct (takeLookup m (placeLookups s)) as [[k rest]|]; [|reflexivity].
    destruct r as [v|]; reflexivity. }
  split; [|split].
  - intros n. rewrite Ha, Hp. unfold settleAddress, settlePlaces.
    destruct (takeLookup n (addressLookups s)) as [[k rest]|];
      destruct (takeLookup n (placeLookups s)) as [[k' rest']|];
      split; reflexivity.
  - intros n k rest Hn. rewrite !Ha. unfold settleAddress. rewrite Hn.
    split; reflexivity.
  - intros m k rest Hm. rewrite !Hp. unfold settlePlaces. rewrite Hm.
    split; reflexivity.
Qed.

Lemma failed_lookup_is_dropped_witness :
  (addresses (step tapped (AddressSettled 0 Rejected)) = addresses tapped /\
   step tapped (AddressSettled 0 Rejected)
     = setAddressLookups [] (nextPromise tapped) tapped /\
   addresses (step tapped (AddressSettled 0 (Fulfilled (Some []))))
     = addresses tapped ++ [""]) /\
  (places (step searchingAgain (PlacesSettled 1 Rejected)) = places searchingAgain /\
   step searchingAgain (PlacesSettled 1 Rejected)
     = setPlaceLookups [] (nextPromise searchingAgain) searchingAgain /\
   places (step searchingAgain (PlacesSettled 1 (Fulfilled (Some [])))) = Some []).
Proof.
  split.
  - destruct (failed_lookup_is_dropped tapped) as (Hany & Haddress & _).
    destruct (Haddress 0%nat
                (Build_Lookup 0%nat {| latitude := 37.5; longitude := 127.03125 |})
                [] eq_refl) as [Hstep Hempty].
    split; [apply (Hany 0%nat)|]. split; [exact Hstep|exact Hempty].
  - destruct (failed_lookup_is_dropped searchingAgain) as (Hany & _ & Hplaces).
    destruct (Hplaces 1%nat (Build_Lookup 1%nat "cafes") [] eq_refl)
      as [Hstep Hempty].
    split; [apply (Hany 1%nat)|]. split; [exact Hstep|exact Hempty].
Defined.

(** ** Reverting an empty road *)

(** C6, counterexample: on the empty road of a fresh session the revert
    button calls [removeLastLine] on the map. *)
Lemma revert_of_empty_road_calls_the_map :
  routes (init true) = [] /\
  mapCalls (init true) = [] /\
  mapCalls (step (init true) ClickRevertRoad) = [removeLastLine] /\
  mapCalls (step (init true) ClickRevertRoad) <> mapCalls (init true).
Proof. repeat split; try reflexivity; discriminate. Qed.

(** C6, amended: reverting an empty road leaves the road empty and leaves
    the spots, the mode, the selection and the search state as they are;
    [addresses] loses its last entry when it has one; the [removeRoute]
    action is dispatched and, when the map service is attached,
    [removeLastLine] is called on it all the same. *)
Theorem revert_of_empty_road (s : State) :
  routes s = [] ->
  routes (step s ClickRevertRoad) = [] /\
  spots (step s ClickRevertRoad) = spots s /\
  mode (step s ClickRevertRoad) = mode s /\
  selectedSpot (step s ClickRevertRoad) = selectedSpot s /\
  searchQuery (step s ClickRevertRoad) = searchQuery s /\
  places (step s ClickRevertRoad) = places s /\
  timers (step s ClickRevertRoad) = timers s /\
  addresses (step s ClickRevertRoad) = take (length (addresses s) - 1)%nat (addresses s) /\
  dispatched (step s ClickRevertRoad) = dispatched s ++ [removeRoute] /\
  mapCalls (step s ClickRevertRoad)
    = (if mapService s then mapCalls s ++ [removeLastLine] else mapCalls s).
Proof.
  intros Hr.
  rewrite step_same_routes by (cbn; rewrite Hr; reflexivity).
  cbn. rewrite Hr, slice_init. repeat split.
Qed.

Lemma revert_of_empty_road_witness :
  routes (step (init true) ClickRevertRoad) = [] /\
  spots (step (init true) ClickRevertRoad) = spots (init true) /\
  mode (step (init true) ClickRevertRoad) = mode (init true) /\
  selectedSpot (step (init true) ClickRevertRoad) = selectedSpot (init true) /\
  searchQuery (step (init true) ClickRevertRoad) = searchQuery (init true) /\
  places (step (init true) ClickRevertRoad) = places (init true) /\
  timers (step (init true) ClickRevertRoad) = timers (init true) /\
  addresses (step (init true) ClickRevertRoad)
    = take (length (addresses (init true)) - 1)%nat (addresses (init true)) /\
  dispatched (step (init true) ClickRevertRoad) = dispatched (init true) ++ [removeRoute] /\
  mapCalls (step (init true) ClickRevertRoad)
    = (if mapService (init true) then mapCalls (init true) ++ [removeLastLine]
       else mapCalls (init true)).
Proof. apply (revert_of_empty_road (init true)). reflexivity. Defined.

(** ** Removing a spot *)


Example secondSpotSelected_spots : spots secondSpotSelected = [spotA; spotB].
Proof. reflexivity. Qed.


Example removeSpot_without_selection :
  selectedSpot twoSpots = None /\
  spots (step twoSpots (RemoveSpot 0)) = [spotB] /\
  mapCalls (step twoSpots (RemoveSpot 0))
    = [addMarker 37.5 127.0; addMarker 37.25 127.5; removeMarker 0].
Proof. repeat split; reflexivity. Qed.

Example removeSpot_below_selection :
  selectedSpot (step secondSpotSelected (RemoveSpot 0)) = Some 0 /\
  spots (step secondSpotSelected (RemoveSpot 0)) = [spotB].
Proof. split; reflexivity. Qed.

Example removeSpot_selected :
  selectedSpot (step secondSpotSelected (RemoveSpot 1)) = None /\
  spots (step secondSpotSelected (RemoveSpot 1)) = [spotA].
Proof. split; reflexivity. Qed.

(** ** The effect on the first route point *)

Lemma step_routes s e : routes (step s e) = routes (handle e s).
Proof. unfold step. apply render_frame. Qed.

(** Only a tap in road mode, the clear button and the revert button act on
    the road. *)
Lemma handle_routes s e :
  routes (handle e s) =
    match e with
    | ClickMap lat lon =>
        match mode s with
        | DrawMode.Road => routes s ++ [{| latitude := lat; longitude := lon |}]
        | DrawMode.Spot => routes s
        end
    | ClickClearRoad => []
    | ClickRevertRoad => take (length (routes s) - 1)%nat (routes s)
    | _ => routes s
    end.
Proof.
  destruct e; unfold_handlers; cbn; split_handler; reflexivity.
Qed.

(** C8: whenever a step takes the road from no point to one point, the step
    is a tap in road mode; it dispatches [addRoute] and then exactly one
    [requestGetPlaces], seeded with that point; on the map service, when it
    is attached, it draws the line, starts the reverse geocoding and calls
    [removeCurrentLocationMarker]. The text search is not involved: the query,
    the places, the debounce timer and the searches in flight are left as they
    are. *)
Theorem first_point_requests_places (s : State) (e : Event) :
  routes s = [] ->
  length (routes (step s e)) = 1%nat ->
  exists lat lon,
    e = ClickMap lat lon /\
    mode s = DrawMode.Road /\
    routes (step s e) = [{| latitude := lat; longitude := lon |}] /\
    dispatched (step s e)
      = dispatched s ++ [addRoute {| latitude := lat; longitude := lon |};
                         requestGetPlaces {| latitude := lat; longitude := lon |}] /\
    mapCalls (step s e)
      = (if mapService s
         then mapCalls s ++ [drawLine lat lon; searchAddress lat lon;
                             removeCurrentLocationMarker]
         else mapCalls s) /\
    searchQuery (step s e) = searchQuery s /\
    places (step s e) = places s /\
    timers (step s e) = timers s /\
    searchQueryDebounceRef (step s e) = searchQueryDebounceRef s /\
    placeLookups (step s e) = placeLookups s.
Proof.
  intros Hr Hlen.
  rewrite step_routes, handle_routes, Hr in Hlen.
  destruct e as [m|v|lat lon| | |spot index|index|ms|t|n r|n r];
    try discriminate Hlen.
  destruct (mode s) eqn:Hmode; [|discriminate Hlen].
  exists lat, lon.
  unfold step, render, routesEffect. rewrite handle_routes, Hmode, Hr.
  cbn. unfold handkleClickMap. rewrite Hmode. cbn.
  destruct (mapService s) eqn:Hsvc; cbn; rewrite ?Hr, ?Hsvc; cbn;
    rewrite <- ?app_assoc; repeat split; reflexivity.
Qed.

Lemma first_point_requests_places_witness :
  exists lat lon,
    ClickMap 37.5%float 127.03125%float = ClickMap lat lon /\
    mode (init true) = DrawMode.Road /\
    routes (step (init true) (ClickMap 37.5%float 127.03125%float))
      = [{| latitude := lat; longitude := lon |}] /\
    dispatched (step (init true) (ClickMap 37.5%float 127.03125%float))
      = dispatched (init true)
          ++ [addRoute {| latitude := lat; longitude := lon |};
              requestGetPlaces {| latitude := lat; longitude := lon |}] /\
    mapCalls (step (init true) (ClickMap 37.5%float 127.03125%float))
      = (if mapService (init true)
         then mapCalls (init true) ++ [drawLine lat lon; searchAddress lat lon;
                                       removeCurrentLocationMarker]
         else mapCalls (init true)) /\
    searchQuery (step (init true) (ClickMap 37.5%float 127.03125%float))
      = searchQuery (init true) /\
    places (step (init true) (ClickMap 37.5%float 127.03125%float)) = places (init true) /\
    timers (step (init true) (ClickMap 37.5%float 127.03125%float)) = timers (init true) /\
    searchQueryDebounceRef (step (init true) (ClickMap 37.5%float 127.03125%float))
      = searchQueryDebounceRef (init true) /\
    placeLookups (step (init true) (ClickMap 37.5%float 127.03125%float))
      = placeLookups (init true).
Proof.
  apply (first_point_requests_places (init true) (ClickMap 37.5%float 127.03125%float));
    reflexivity.
Defined.



Example revert_to_one_point :
  routes (step twoPoints ClickRevertRoad)
    = [{| latitude := 37.5; longitude := 127.03125 |}] /\
  dispatched (step twoPoints ClickRevertRoad)
    = dispatched twoPoints
        ++ [removeRoute;
            requestGetPlaces {| latitude := 37.5; longitude := 127.03125 |}] /\
  mapCalls (step twoPoints ClickRevertRoad)
    = mapCalls twoPoints ++ [removeLastLine; removeCurrentLocationMarker].
Proof. repeat split; reflexivity. Qed.

(** ** The debounce timer *)

Lemma timersInv_init service : timersInv (init service).
Proof. intros t timer H. cbn in H. rewrite lookup_empty in H. discriminate. Qed.

(** Under the invariant, the [clearTimeout] of [handleChangeSearchQuery]
    leaves no timer pending. *)
Lemma cleared_timers s :
  timersInv s ->
  match searchQueryDebounceRef s with
  | Some t => delete t (timers s)
  | None => timers s
  end = ∅.
Proof.
  intros Hinv. apply map_empty. intros t.
  destruct (searchQueryDebounceRef s) as [t0|] eqn:Href.
  - destruct (decide (t0 = t)) as [->|Hne].
    + apply lookup_delete_eq.
    + rewrite lookup_delete_ne by exact Hne.
      destruct (timers s !! t) as [timer|] eqn:Ht; [|reflexivity].
      apply Hinv in Ht. congruence.
  - destruct (timers s !! t) as [timer|] eqn:Ht; [|reflexivity].
    apply Hinv in Ht. congruence.
Qed.

Lemma handleChangeSearchQuery_step s v :
  step s (ChangeSearchQuery v) = handleChangeSearchQuery v s.
Proof.
  apply step_same_routes. cbn. unfold handleChangeSearchQuery. cbn.
  destruct (searchQueryDebounceRef s); reflexivity.
Qed.

Lemma handleChangeSearchQuery_timers s v :
  timersInv s ->
  timers (step s (ChangeSearchQuery v))
    = {[ nextTimer s := {| due := (clock s + 500)%nat; value := v |} ]}.
Proof.
  intros Hinv. rewrite handleChangeSearchQuery_step.
  unfold handleChangeSearchQuery. cbn.
  transitivity
    (<[nextTimer s := {| due := (clock s + 500)%nat; value := v |}]>
       (match searchQueryDebounceRef s with
        | Some t => delete t (timers s)
        | None => timers s
        end)).
  - destruct (searchQueryDebounceRef s); reflexivity.
  - rewrite cleared_timers by exact Hinv. apply insert_empty.
Qed.

Lemma handleChangeSearchQuery_frame s v :
  searchQuery (step s (ChangeSearchQuery v)) = v /\
  searchQueryDebounceRef (step s (ChangeSearchQuery v)) = Some (nextTimer s) /\
  nextTimer (step s (ChangeSearchQuery v)) = Pos.succ (nextTimer s) /\
  clock (step s (ChangeSearchQuery v)) = clock s /\
  places (step s (ChangeSearchQuery v)) = places s /\
  mapCalls (step s (ChangeSearchQuery v)) = mapCalls s /\
  placeLookups (step s (ChangeSearchQuery v)) = placeLookups s /\
  nextPromise (step s (ChangeSearchQuery v)) = nextPromise s.
Proof.
  rewrite handleChangeSearchQuery_step. unfold handleChangeSearchQuery. cbn.
  destruct (searchQueryDebounceRef s); repeat split.
Qed.

Lemma timersInv_step s e : timersInv s -> timersInv (step s e).
Proof.
  intros Hinv.
  destruct e as [m|v|lat lon| | |spot index|index|ms|t|n r|n r].
  2: { intros t timer Ht. rewrite handleChangeSearchQuery_timers in Ht by exact Hinv.
       apply lookup_singleton_Some in Ht as [<- _].
       apply handleChangeSearchQuery_frame. }
  all: intros t0 timer; unfold step;
    match goal with
    | |- context [render ?s0 ?h] =>
        destruct (render_frame s0 h)
          as (_ & _ & _ & _ & _ & _ & _ & _ & -> & _ & -> & _)
    end;
    unfold_handlers; cbn; split_handler; cbn; try apply Hinv.
  all: intros Ht; apply lookup_delete_Some in Ht as [_ Ht]; revert Ht; apply Hinv.
Qed.

Lemma settlePlaces_step s n r : step s (PlacesSettled n r) = settlePlaces n r s.
Proof.
  apply step_same_routes. cbn. unfold settlePlaces.
  destruct (takeLookup n (placeLookups s)) as [[k rest]|]; [|reflexivity].
  destruct r; reflexivity.
Qed.

Lemma fire_step s t : step s (Timeout t) = fire t s.
Proof.
  apply step_same_routes. cbn. unfold_handlers. split_handler; reflexivity.
Qed.

(** ** Superseding a search *)

(** C4, counterexample: the second call, with the same text, comes while the
    network call of the first is in flight; the answer of the first call is
    applied to [places] all the same, and so is, later, the answer of the
    second: two lookups of one debouncer take effect. *)
Lemma superseded_search_is_applied :
  placeLookups retypedInFlight = [Build_Lookup 0%nat "cafe"] /\
  places retypedInFlight = Some [] /\
  places (step retypedInFlight (PlacesSettled 0 (Fulfilled (Some [cafe]))))
    = Some [cafe] /\
  places (step retypedInFlight (PlacesSettled 0 (Fulfilled (Some [cafe]))))
    <> places retypedInFlight /\
  places (run retypedInFlight
            [PlacesSettled 0 (Fulfilled (Some [cafe])); Elapse 500; Timeout 2;
             PlacesSettled 1 (Fulfilled (Some [cafe; cafe]))])
    = Some [cafe; cafe].
Proof. repeat split; try reflexivity; discriminate. Qed.

Lemma timersInv_run es : forall s, timersInv s -> timersInv (run s es).
Proof.
  induction es as [|e es IH]; intros s Hinv; [exact Hinv|].
  rewrite run_cons. apply IH, timersInv_step, Hinv.
Qed.

(** C4, amended: a later call supersedes an earlier one only while the
    timer of the earlier one is pending: the call clears that timer, so that
    the timer of the later call is the only one pending and the text of the
    earlier call is never searched, whether a search is in flight or not.
    Once the earlier timer has fired and its search is in flight, a later
    call, with the same text or another, does not supersede it: the answer is
    applied to [places] when it arrives. *)
Theorem typing_supersedes_pending_timer_only (s : State) (v : string) :
  timersInv s ->
  timers (step s (ChangeSearchQuery v))
    = {[ nextTimer s := {| due := (clock s + 500)%nat; value := v |} ]} /\
  mapCalls (step s (ChangeSearchQuery v)) = mapCalls s /\
  placeLookups (step s (ChangeSearchQuery v)) = placeLookups s /\
  forall n k rest answer,
    takeLookup n (placeLookups s) = Some (k, rest) ->
    places (step (step s (ChangeSearchQuery v)) (PlacesSettled n (Fulfilled answer)))
      = answer.
Proof.
  intros Hinv. split; [apply handleChangeSearchQuery_timers, Hinv|].
  destruct (handleChangeSearchQuery_frame s v)
    as (_ & _ & _ & _ & _ & Hcalls & Hlook & _).
  split; [exact Hcalls|]. split; [exact Hlook|].
  intros n k rest answer Hk.
  rewrite settlePlaces_step. unfold settlePlaces. rewrite Hlook, Hk. reflexivity.
Qed.

Lemma typing_supersedes_pending_timer_only_witness :
  (timers typedOnce = {[ 1%positive := {| due := 500; value := "c" |} ]} /\
   placeLookups typedOnce = [] /\
   timers (step typedOnce (ChangeSearchQuery "ca"))
     = {[ nextTimer typedOnce
          := {| due := (clock typedOnce + 500)%nat; value := "ca" |} ]} /\
   mapCalls (step typedOnce (ChangeSearchQuery "ca")) = mapCalls typedOnce) /\
  (timers (step searchInFlight (ChangeSearchQuery "cafe"))
     = {[ nextTimer searchInFlight
          := {| due := (clock searchInFlight + 500)%nat; value := "cafe" |} ]} /\
   places (step (step searchInFlight (ChangeSearchQuery "cafe"))
             (PlacesSettled 0 (Fulfilled (Some [cafe]))))
     = Some [cafe]).
Proof.
  split.
  - destruct (typing_supersedes_pending_timer_only typedOnce "ca")
      as (Htimers & Hcalls & _).
    { apply (bool_decide_unpack (timersInv typedOnce)). vm_compute. exact I. }
    split; [reflexivity|]. split; [reflexivity|].
    split; [exact Htimers|exact Hcalls].
  - destruct (typing_supersedes_pending_timer_only searchInFlight "cafe")
      as (Htimers & _ & _ & Hanswer).
    { apply (bool_decide_unpack (timersInv searchInFlight)). vm_compute. exact I. }
    split; [exact Htimers|].
    apply (Hanswer 0%nat (Build_Lookup 0%nat "cafe") [] (Some [cafe])).
    reflexivity.
Defined.

(** ** Emptying the search box *)

(** C7, counterexample: emptying the search box leaves the places found
    earlier in [places], also after the new timer has fired. *)
Lemma empty_query_does_not_clear_places :
  places found = Some [cafe] /\
  searchQuery (step found (ChangeSearchQuery "")) = "" /\
  places (step found (ChangeSearchQuery "")) = Some [cafe] /\
  places (step found (ChangeSearchQuery "")) <> Some [] /\
  places (run found [ChangeSearchQuery ""; Elapse 500; Timeout 2]) = Some [cafe].
Proof. repeat split; try reflexivity; discriminate. Qed.

(** C7, amended: a call with the empty string updates the query, clears the
    pending timer and sets a new one for the empty string, the only timer
    pending; no [searchPlaces] call is made, neither by the call nor when the
    new timer fires, and [places] is left as it is (it is not cleared). *)
Theorem empty_query_searches_nothing (s : State) (ms : nat) :
  timersInv s ->
  searchQuery (step s (ChangeSearchQuery "")) = "" /\
  timers (step s (ChangeSearchQuery ""))
    = {[ nextTimer s := {| due := (clock s + 500)%nat; value := "" |} ]} /\
  places (step s (ChangeSearchQuery "")) = places s /\
  mapCalls (step s (ChangeSearchQuery "")) = mapCalls s /\
  placeLookups (step s (ChangeSearchQuery "")) = placeLookups s /\
  places (run s [ChangeSearchQuery ""; Elapse ms; Timeout (nextTimer s)]) = places s /\
  mapCalls (run s [ChangeSearchQuery ""; Elapse ms; Timeout (nextTimer s)]) = mapCalls s /\
  placeLookups (run s [ChangeSearchQuery ""; Elapse ms; Timeout (nextTimer s)])
    = placeLookups s.
Proof.
  intros Hinv.
  pose proof (handleChangeSearchQuery_timers s "" Hinv) as Htimers.
  destruct (handleChangeSearchQuery_frame s "")
    as (Hq & _ & _ & _ & Hplaces & Hcalls & Hlook & _).
  repeat (split; [assumption|]).
  rewrite !run_cons. cbn [run fold_left].
  set (s1 := step s (ChangeSearchQuery "")) in *.
  assert (Hs2 : step s1 (Elapse ms) = elapse ms s1)
    by (apply step_same_routes; reflexivity).
  rewrite Hs2, fire_step. unfold fire. cbn [timers elapse].
  rewrite Htimers, lookup_singleton_eq. cbn [due value].
  destruct (_ <=? _)%nat; cbn; auto.
Qed.

Lemma empty_query_searches_nothing_witness :
  searchQuery (step found (ChangeSearchQuery "")) = "" /\
  timers (step found (ChangeSearchQuery ""))
    = {[ nextTimer found := {| due := (clock found + 500)%nat; value := "" |} ]} /\
  places (step found (ChangeSearchQuery "")) = places found /\
  mapCalls (step found (ChangeSearchQuery "")) = mapCalls found /\
  placeLookups (step found (ChangeSearchQuery "")) = placeLookups found /\
  places (run found [ChangeSearchQuery ""; Elapse 500; Timeout (nextTimer found)])
    = places found /\
  mapCalls (run found [ChangeSearchQuery ""; Elapse 500; Timeout (nextTimer found)])
    = mapCalls found /\
  placeLookups (run found [ChangeSearchQuery ""; Elapse 500; Timeout (nextTimer found)])
    = placeLookups found.
Proof.
  apply (empty_query_searches_nothing found 500).
  apply (bool_decide_unpack (timersInv found)). vm_compute. exact I.
Defined.

(** ** Debounced search *)

Lemma searchedTexts_app s calls :
  omap (fun c => match c with searchPlaces v => Some v | _ => None end)
    (mapCalls s ++ calls)
  = searchedTexts s
    ++ omap (fun c => match c with searchPlaces v => Some v | _ => None end) calls.
Proof. apply omap_app. Qed.














Example typedCaf_fires :
  searchedTexts (run typedCaf [Elapse 500; Timeout 3]) = ["caf"] /\
  mapCalls (run typedCaf [Elapse 500; Timeout 3]) = [searchPlaces "caf"].
Proof. split; reflexivity. Qed.

(** ** Addresses and route points *)

Lemma handle_addresses s e :
  addresses (handle e s) =
    match e with
    | ClickClearRoad => []
    | ClickRevertRoad => take (length (addresses s) - 1)%nat (addresses s)
    | AddressSettled n (Fulfilled (Some result)) =>
        match takeLookup n (addressLookups s) with
        | Some _ => addresses s ++ [displayAddress result]
        | None => addresses s
        end
    | _ => addresses s
    end.
Proof.
  destruct e; unfold_handlers; cbn; rewrite ?slice_init; split_handler;
    reflexivity.
Qed.

Lemma handle_addressLookups s e :
  addressLookups (handle e s) =
    match e with
    | ClickMap lat lon =>
        match mode s with
        | DrawMode.Road =>
            if mapService s
            then addressLookups s
                   ++ [Build_Lookup (nextPromise s)
                         {| latitude := lat; longitude := lon |}]
            else addressLookups s
        | DrawMode.Spot => addressLookups s
        end
    | AddressSettled n _ =>
        match takeLookup n (addressLookups s) with
        | Some (_, rest) => rest
        | None => addressLookups s
        end
    | _ => addressLookups s
    end.
Proof.
  destruct e; unfold_handlers; cbn; split_handler; reflexivity.
Qed.

Lemma step_addresses s e : addresses (step s e) = addresses (handle e s).
Proof. unfold step. apply render_frame. Qed.

Lemma step_addressLookups s e :
  addressLookups (step s e) = addressLookups (handle e s).
Proof. unfold step. apply render_frame. Qed.

Lemma bounded_step s e : settledBefore s e -> bounded s -> bounded (step s e).
Proof.
  unfold bounded. intros He Hb.
  rewrite step_addresses, step_addressLookups, step_routes.
  rewrite handle_addresses, handle_addressLookups, handle_routes.
  destruct e as [m|v|lat lon| | |spot index|index|ms|t|n r|n r]; try exact Hb.
  - destruct (mode s); [|exact Hb].
    destruct (mapService s); rewrite ?length_app; cbn; lia.
  - cbn in He. rewrite He. cbn. lia.
  - cbn in He. rewrite He in *. rewrite !length_take. cbn in *. lia.
  - destruct (takeLookup n (addressLookups s)) as [[k rest]|] eqn:Hk.
    + apply takeLookup_length in Hk.
      destruct r as [[result|]|]; rewrite ?length_app; cbn; lia.
    + destruct r as [[result|]|]; exact Hb.
Qed.

Lemma bounded_run es : forall s, patient s es -> bounded s -> bounded (run s es).
Proof.
  induction es as [|e es IH]; intros s Hp Hb; [exact Hb|].
  destruct Hp as [He Hp]. rewrite run_cons.
  apply IH; [exact Hp|]. apply bounded_step; assumption.
Qed.

Lemma aligned_step geocoder s e :
  settledBefore s e -> answered geocoder s e ->
  aligned geocoder s -> aligned geocoder (step s e).
Proof.
  intros Hs Ha (Hsvc & done & Hr & Had).
  split; [rewrite step_mapService; exact Hsvc|].
  rewrite step_addresses, step_addressLookups, step_routes.
  rewrite handle_addresses, handle_addressLookups, handle_routes.
  destruct e as [m|v|lat lon| | |spot index|index|ms|t|n r|n r];
    try (exists done; split; assumption).
  - (* a tap *)
    destruct (mode s); [|exists done; split; assumption].
    rewrite Hsvc. exists done. split; [|exact Had].
    rewrite fmap_app, app_assoc, <- Hr. reflexivity.
  - (* the clear button *)
    cbn in Hs. rewrite Hs. exists []. split; reflexivity.
  - (* the revert button *)
    cbn in Hs. rewrite Hs in *. cbn in Hr. rewrite app_nil_r in Hr.
    exists (take (length done - 1)%nat done). cbn. rewrite app_nil_r.
    rewrite Hr, Had, length_fmap, fmap_take. split; reflexivity.
  - (* an answer *)
    cbn in Ha. destruct Ha as (k & rest & Hk & -> & ->).
    rewrite Hk, takeLookup_head.
    exists (done ++ [request k]). split.
    + rewrite Hr, Hk, <- app_assoc. reflexivity.
    + rewrite Had, fmap_app. reflexivity.
Qed.

Lemma aligned_run geocoder es : forall s,
  patient s es -> inOrder geocoder s es ->
  aligned geocoder s -> aligned geocoder (run s es).
Proof.
  induction es as [|e es IH]; intros s Hp Ho Ha; [exact Ha|].
  destruct Hp as [He Hp]. destruct Ho as [Hans Ho]. rewrite run_cons.
  apply IH; [exact Hp|exact Ho|]. apply aligned_step; assumption.
Qed.

(** C2, counterexample: after tap, revert and the late answer there is one
    address and no route point; and when the answers of two taps arrive in
    the opposite order, everything has settled with two points and two
    addresses, the first address being the one of the second point. *)
Lemma addresses_outnumber_routes :
  routes (run (init true)
            [ClickMap 37.5%float 127.03125%float; ClickRevertRoad;
             AddressSettled 0 (Fulfilled (Some teheranRo))]) = [] /\
  addresses (run (init true)
               [ClickMap 37.5%float 127.03125%float; ClickRevertRoad;
                AddressSettled 0 (Fulfilled (Some teheranRo))])
    = ["Teheran-ro 1 (Gangnam-gu)"] /\
  ~ (length (addresses (run (init true)
               [ClickMap 37.5%float 127.03125%float; ClickRevertRoad;
                AddressSettled 0 (Fulfilled (Some teheranRo))]))
     <= length (routes (run (init true)
               [ClickMap 37.5%float 127.03125%float; ClickRevertRoad;
                AddressSettled 0 (Fulfilled (Some teheranRo))])))%nat /\
  addressLookups (run twoPoints
                    [AddressSettled 1 (Fulfilled (Some seolleungRo));
                     AddressSettled 0 (Fulfilled (Some teheranRo))]) = [] /\
  addresses (run twoPoints
               [AddressSettled 1 (Fulfilled (Some seolleungRo));
                AddressSettled 0 (Fulfilled (Some teheranRo))])
    = ["Seolleung-ro 2 (Yeoksam-dong)"; "Teheran-ro 1 (Gangnam-gu)"].
Proof. repeat split; try reflexivity. vm_compute. lia. Qed.

(** C2, amended: in a session that starts on an empty road, as long as the
    clear and revert buttons are pressed only while no reverse geocoding is
    in flight, [addresses] is never longer than [routes], whatever the
    events and the order and outcome of the answers. If moreover the map
    service is attached and every reverse geocoding succeeds and is answered
    in the order of the requests, then once no lookup is in flight the two
    lists have the same length and the address at index [i] is the one
    composed from the answer for the route point at index [i]. *)
Theorem addresses_follow_routes (service : bool) (es : list Event) :
  patient (init service) es ->
  (length (addresses (run (init service) es))
   <= length (routes (run (init service) es)))%nat /\
  forall geocoder,
    service = true ->
    inOrder geocoder (init service) es ->
    addressLookups (run (init service) es) = [] ->
    length (addresses (run (init service) es))
      = length (routes (run (init service) es)) /\
    forall (i : nat) (p : RoutePoint),
      routes (run (init service) es) !! i = Some p ->
      addresses (run (init service) es) !! i = Some (displayAddress (geocoder p)).
Proof.
  intros Hp. split.
  - assert (Hb : bounded (run (init service) es)).
    { apply bounded_run; [exact Hp|]. unfold bounded. cbn. lia. }
    unfold bounded in Hb. lia.
  - intros geocoder -> Ho Hnone.
    destruct (aligned_run geocoder es (init true) Hp Ho) as (_ & done & Hr & Ha).
    { split; [reflexivity|]. exists []. split; reflexivity. }
    rewrite Hnone in Hr. cbn in Hr. rewrite app_nil_r in Hr.
    rewrite Hr, Ha. split; [apply length_fmap|].
    intros i p Hi. rewrite list_lookup_fmap, Hi. reflexivity.
Qed.

Lemma addresses_follow_routes_witness :
  (length (addresses (run (init true) orderlySession))
   <= length (routes (run (init true) orderlySession)))%nat /\
  length (addresses (run (init true) orderlySession))
    = length (routes (run (init true) orderlySession)) /\
  forall (i : nat) (p : RoutePoint),
    routes (run (init true) orderlySession) !! i = Some p ->
    addresses (run (init true) orderlySession) !! i
      = Some (displayAddress (twoAnswers p)).
Proof.
  destruct (addresses_follow_routes true orderlySession) as [Hle Heq].
  - cbn. repeat split.
  - split; [exact Hle|].
    apply (Heq twoAnswers).
    + reflexivity.
    + cbn. repeat split; eexists _, _; repeat split.
    + reflexivity.
Defined.

Example orderlySession_addresses :
  routes (run (init true) orderlySession)
    = [{| latitude := 37.5; longitude := 127.03125 |};
       {| latitude := 37.25; longitude := 127.5 |}] /\
  addresses (run (init true) orderlySession)
    = ["Teheran-ro 1 (Gangnam-gu)"; "Seolleung-ro 2 (Yeoksam-dong)"].
Proof. split; reflexivity. Qed.

(** ** Composing an address *)

Lemma append_empty (v : string) : v +:+ "" = v.
Proof.
  induction v as [|c v IH]; [reflexivity|].
  change (String c (v +:+ "") = String c v). f_equal. exact IH.
Qed.

(** X1: the text composed for a list of results depends on its first entry
    only. A road address name that is present is used as it is, also when it
    is the empty string and a general address name exists; the text is then
    that name alone or that name followed by a region in parentheses, the
    region being a non-empty [region_3depth_name] of the [address] member
    (never of [road_address]). *)
Theorem displayAddress_prefers_road_name
  (r : AddressResult) (rest : list AddressResult) (ra : AddressInfo) (name : string) :
  road_address r = Some ra ->
  address_name ra = Some name ->
  displayAddress (r :: rest) = displayAddress [r] /\
  (displayAddress (r :: rest) = name /\
     (forall a region, address r = Some a ->
        region_3depth_name a = Some region -> region = "")
   \/
   exists a region,
     address r = Some a /\ region_3depth_name a = Some region /\
     region <> "" /\
     displayAddress (r :: rest) = name +:+ " (" +:+ region +:+ ")").
Proof.
  intros Hra Hname. split; [reflexivity|].
  unfold displayAddress. cbn. rewrite Hra. cbn. rewrite Hname. cbn.
  destruct (address r) as [a|] eqn:Ha; cbn.
  - destruct (region_3depth_name a) as [region|] eqn:Hregion; cbn.
    + destruct region as [|c region]; cbn.
      * left. split; [apply append_empty|].
        intros a' region' [= <-] Hr'. congruence.
      * right. exists a, (String c region). repeat split; [exact Hregion|discriminate].
    + left. split; [apply append_empty|].
      intros a' region' [= <-] Hr'. congruence.
  - left. split; [apply append_empty|]. discriminate.
Qed.

Lemma displayAddress_prefers_road_name_witness :
  displayAddress teheranRo = displayAddress [ {| road_address :=
         Some {| address_name := Some "Teheran-ro 1"; region_3depth_name := None |};
       address :=
         Some {| address_name := Some "Yeoksam-dong 1";
                 region_3depth_name := Some "Gangnam-gu" |} |} ] /\
  (displayAddress teheranRo = "Teheran-ro 1" /\
     (forall a region,
        Some {| address_name := Some "Yeoksam-dong 1";
                region_3depth_name := Some "Gangnam-gu" |} = Some a ->
        region_3depth_name a = Some region -> region = "")
   \/
   exists a region,
     Some {| address_name := Some "Yeoksam-dong 1";
             region_3depth_name := Some "Gangnam-gu" |} = Some a /\
     region_3depth_name a = Some region /\
     region <> "" /\
     displayAddress teheranRo = "Teheran-ro 1" +:+ " (" +:+ region +:+ ")").
Proof.
  apply (displayAddress_prefers_road_name
           {| road_address :=
                Some {| address_name := Some "Teheran-ro 1"; region_3depth_name := None |};
              address :=
                Some {| address_name := Some "Yeoksam-dong 1";
                        region_3depth_name := Some "Gangnam-gu" |} |}
           []
           {| address_name := Some "Teheran-ro 1"; region_3depth_name := None |}
           "Teheran-ro 1"); reflexivity.
Defined.

(** ** Taps in spot mode *)

Lemma spot_tap_step (s : State) (lat lon : float) :
  mode s = DrawMode.Spot ->
  step s (ClickMap lat lon)
  = callMap (addMarker lat lon)
      (dispatch (addSpot {| latitude := lat; longitude := lon |}) s).
Proof.
  intros Hmode.
  rewrite step_same_routes by (rewrite handle_routes, Hmode; reflexivity).
  cbn. unfold handkleClickMap. rewrite Hmode. reflexivity.
Qed.

(** X2: in spot mode taps leave the road alone. After any number of taps
    [routes], [addresses], the lookups in flight and the selection are
    unchanged and no reverse geocoding has been started; one spot per tap has
    been appended, in the order of the taps and with an empty title and
    content; only [addSpot] actions have been dispatched (the places around
    the first route point are not asked for again, whatever the size of the
    road) and, when the map service is attached, only [addMarker] calls have
    been made, one per tap. *)
Theorem spot_taps_leave_the_road (taps : list (float * float)) (s : State) :
  mode s = DrawMode.Spot ->
  routes (run s ((fun tap => ClickMap tap.1 tap.2) <$> taps)) = routes s /\
  addresses (run s ((fun tap => ClickMap tap.1 tap.2) <$> taps)) = addresses s /\
  addressLookups (run s ((fun tap => ClickMap tap.1 tap.2) <$> taps))
    = addressLookups s /\
  selectedSpot (run s ((fun tap => ClickMap tap.1 tap.2) <$> taps))
    = selectedSpot s /\
  spots (run s ((fun tap => ClickMap tap.1 tap.2) <$> taps))
    = spots s
        ++ ((fun tap => {| point := {| latitude := tap.1; longitude := tap.2 |};
                           title := ""; content := "" |}) <$> taps) /\
  dispatched (run s ((fun tap => ClickMap tap.1 tap.2) <$> taps))
    = dispatched s
        ++ ((fun tap => addSpot {| latitude := tap.1; longitude := tap.2 |}) <$> taps) /\
  mapCalls (run s ((fun tap => ClickMap tap.1 tap.2) <$> taps))
    = (if mapService s
       then mapCalls s ++ ((fun tap => addMarker tap.1 tap.2) <$> taps)
       else mapCalls s).
Proof.
  revert s. induction taps as [|[lat lon] taps IH]; intros s Hmode.
  - cbn. rewrite !app_nil_r. destruct (mapService s); repeat split.
  - rewrite fmap_cons, run_cons. cbn [fst snd].
    rewrite (spot_tap_step s lat lon Hmode).
    destruct (IH (callMap (addMarker lat lon)
                    (dispatch (addSpot {| latitude := lat; longitude := lon |}) s)))
      as (-> & -> & -> & -> & -> & -> & ->); [exact Hmode|].
    cbn. destruct (mapService s); rewrite <- ?app_assoc; repeat split.
Qed.

Lemma spot_taps_leave_the_road_witness :
  routes (run secondSpotSelected
            ((fun tap => ClickMap tap.1 tap.2)
               <$> [(37.0%float, 127.0%float); (37.125%float, 127.25%float)]))
    = routes secondSpotSelected /\
  addresses (run secondSpotSelected
               ((fun tap => ClickMap tap.1 tap.2)
                  <$> [(37.0%float, 127.0%float); (37.125%float, 127.25%float)]))
    = addresses secondSpotSelected /\
  addressLookups (run secondSpotSelected
                    ((fun tap => ClickMap tap.1 tap.2)
                       <$> [(37.0%float, 127.0%float); (37.125%float, 127.25%float)]))
    = addressLookups secondSpotSelected /\
  selectedSpot (run secondSpotSelected
                  ((fun tap => ClickMap tap.1 tap.2)
                     <$> [(37.0%float, 127.0%float); (37.125%float, 127.25%float)]))
    = selectedSpot secondSpotSelected /\
  spots (run secondSpotSelected
           ((fun tap => ClickMap tap.1 tap.2)
              <$> [(37.0%float, 127.0%float); (37.125%float, 127.25%float)]))
    = spots secondSpotSelected
        ++ ((fun tap => {| point := {| latitude := tap.1; longitude := tap.2 |};
                           title := ""; content := "" |})
              <$> [(37.0%float, 127.0%float); (37.125%float, 127.25%float)]) /\
  dispatched (run secondSpotSelected
                ((fun tap => ClickMap tap.1 tap.2)
                   <$> [(37.0%float, 127.0%float); (37.125%float, 127.25%float)]))
    = dispatched secondSpotSelected
        ++ ((fun tap => addSpot {| latitude := tap.1; longitude := tap.2 |})
              <$> [(37.0%float, 127.0%float); (37.125%float, 127.25%float)]) /\
  mapCalls (run secondSpotSelected
              ((fun tap => ClickMap tap.1 tap.2)
                 <$> [(37.0%float, 127.0%float); (37.125%float, 127.25%float)]))
    = (if mapService secondSpotSelected
       then mapCalls secondSpotSelected
              ++ ((fun tap => addMarker tap.1 tap.2)
                    <$> [(37.0%float, 127.0%float); (37.125%float, 127.25%float)])
       else mapCalls secondSpotSelected).
Proof.
  apply (spot_taps_leave_the_road
           [(37.0%float, 127.0%float); (37.125%float, 127.25%float)]
           secondSpotSelected).
  reflexivity.
Defined.

(** ** One debounce timer *)

Lemma one_key_map (m : gmap positive Timer) (r : option positive) :
  map_Forall (fun t _ => r = Some t) m -> (size m <= 1)%nat.
Proof.
  intros Hall.
  destruct (decide (m = ∅)) as [->|Hne]; [rewrite map_size_empty; lia|].
  apply map_choose in Hne as (t & timer & Ht).
  assert (Hm : m = {[ t := timer ]}).
  { apply map_eq. intros t'.
    destruct (decide (t' = t)) as [->|Hdiff].
    - rewrite lookup_singleton_eq. exact Ht.
    - rewrite lookup_singleton_ne by congruence.
      destruct (m !! t') as [timer'|] eqn:Ht'; [|reflexivity].
      apply Hall in Ht, Ht'. congruence. }
  rewrite Hm, map_size_singleton. lia.
Qed.

(** X3: at every moment of a session at most one debounce timer is pending,
    and a pending timer is the one whose id [searchQueryDebounceRef] holds:
    a timer the component can no longer clear never exists. *)
Theorem at_most_one_pending_timer (service : bool) (es : list Event) :
  (size (timers (run (init service) es)) <= 1)%nat /\
  forall t timer,
    timers (run (init service) es) !! t = Some timer ->
    searchQueryDebounceRef (run (init service) es) = Some t.
Proof.
  pose proof (timersInv_run es (init service) (timersInv_init service)) as Hinv.
  split; [|exact Hinv].
  apply (one_key_map _ (searchQueryDebounceRef (run (init service) es))), Hinv.
Qed.

(** ** The selected spot *)

Lemma step_spots s e : spots (step s e) = spots (handle e s).
Proof. unfold step. apply render_frame. Qed.

Lemma step_selectedSpot s e : selectedSpot (step s e) = selectedSpot (handle e s).
Proof. unfold step. apply render_frame. Qed.

Lemma handle_spots s e :
  spots (handle e s) =
    match e with
    | ClickMap lat lon =>
        match mode s with
        | DrawMode.Road => spots s
        | DrawMode.Spot =>
            spots s ++ [{| point := {| latitude := lat; longitude := lon |};
                           title := ""; content := "" |}]
        end
    | RemoveSpot index =>
        if 0 <=? index then delete (Z.to_nat index) (spots s) else spots s
    | _ => spots s
    end.
Proof.
  destruct e; unfold_handlers; cbn; split_handler; reflexivity.
Qed.

Lemma handle_selectedSpot s e :
  selectedSpot (handle e s) =
    match e with
    | ClickSpot _ index => Some index
    | RemoveSpot index =>
        match selectedSpot s with
        | Some j =>
            if index =? j then None
            else if index <? j then Some (j - 1) else Some j
        | None => None
        end
    | _ => selectedSpot s
    end.
Proof.
  destruct e as [m|v|lat lon| | |spot index|index|ms|t|n r|n r];
    unfold_handlers; cbn; split_handler; cbn; try congruence.
  match goal with H : selectedSpot s = Some _ |- _ => rewrite H end.
  reflexivity.
Qed.

Lemma validSelection_step s e :
  ofRenderedSpot s e -> validSelection s -> validSelection (step s e).
Proof.
  unfold validSelection. intros He Hv.
  rewrite step_spots, step_selectedSpot, handle_spots, handle_selectedSpot.
  destruct e as [m|v|lat lon| | |spot index|index|ms|t|n r|n r];
    try exact Hv.
  - (* a tap *)
    destruct (mode s); [exact Hv|].
    destruct (selectedSpot s) as [j|]; [|exact I].
    rewrite length_app. cbn. lia.
  - (* a click on a spot *)
    cbn in He. destruct He as [Hpos Hspot].
    apply lookup_lt_Some in Hspot. lia.
  - (* the removal of a spot *)
    cbn in He.
    destruct (selectedSpot s) as [j|]; [|exact I].
    destruct (Z.leb_spec 0 index); [|lia].
    assert (Hlen : length (delete (Z.to_nat index) (spots s))
                   = (length (spots s) - 1)%nat).
    { apply length_delete, lookup_lt_is_Some. lia. }
    destruct (Z.eqb_spec index j); [exact I|].
    destruct (Z.ltb_spec index j); rewrite Hlen; lia.
Qed.

(** X4: the selected spot always exists. In a session whose clicks on a spot
    and removals of a spot come from the rendered list (the spot and index
    the component passes to the handler), [selectedSpot] is either unset or
    the index of a spot of the list, after every event. *)
Theorem selection_is_a_spot (service : bool) (es : list Event) :
  onRenderedSpots (init service) es ->
  validSelection (run (init service) es).
Proof.
  assert (Hgen : forall s, onRenderedSpots s es -> validSelection s ->
                           validSelection (run s es)).
  { induction es as [|e es IH]; intros s Hes Hv; [exact Hv|].
    destruct Hes as [He Hes]. rewrite run_cons.
    apply IH; [exact Hes|]. apply validSelection_step; assumption. }
  intros Hes. apply Hgen; [exact Hes|exact I].
Qed.

Lemma selection_is_a_spot_witness :
  validSelection
    (run (init true)
       [ClickMode DrawMode.Spot; ClickMap 37.5%float 127.0%float;
        ClickMap 37.25%float 127.5%float; ClickSpot spotB 1; RemoveSpot 0]).
Proof.
  apply (selection_is_a_spot true
           [ClickMode DrawMode.Spot; ClickMap 37.5%float 127.0%float;
            ClickMap 37.25%float 127.5%float; ClickSpot spotB 1; RemoveSpot 0]).
  cbn. repeat split; lia.
Defined.

(** ** The map follows the store *)

Lemma step_mode s e : mode (step s e) = mode (handle e s).
Proof. unfold step. apply render_frame. Qed.

Lemma handle_mode s e :
  mode (handle e s) =
    match e with
    | ClickMode selectedMode => selectedMode
    | _ => mode s
    end.
Proof.
  destruct e; unfold_handlers; cbn; split_handler; cbn; congruence.
Qed.

Lemma lockstep_step s e :
  mapService s = true ->
  omap drawing (mapCalls s) = omap mirror (dispatched s) ->
  omap drawing (mapCalls (step s e)) = omap mirror (dispatched (step s e)).
Proof.
  intros Hsvc Hs.
  destruct e as [m|v|lat lon| | |spot index|index|ms|t|n r|n r];
    unfold step, render, routesEffect; unfold_handlers; cbn;
    rewrite ?Hsvc; cbn; split_handler; cbn; rewrite ?Hsvc; cbn;
    rewrite ?omap_app; cbn; rewrite ?app_nil_r, ?Hs; try reflexivity.
Qed.

Lemma step_dispatched s e :
  dispatched (step s e) =
    dispatched s ++
      match e with
      | ClickMap lat lon =>
          match mode s with
          | DrawMode.Road =>
              addRoute {| latitude := lat; longitude := lon |}
                :: match routes s with
                   | [] => [requestGetPlaces {| latitude := lat; longitude := lon |}]
                   | _ :: _ => []
                   end
          | DrawMode.Spot => [addSpot {| latitude := lat; longitude := lon |}]
          end
      | ClickClearRoad => [clearRoute]
      | ClickRevertRoad =>
          removeRoute
            :: match routes s with
               | [p0; _] => [requestGetPlaces p0]
               | _ => []
               end
      | RemoveSpot index => [removeSpot index]
      | _ => []
      end.
Proof.
  destruct e as [m|v|lat lon| | |spot index|index|ms|t|n r|n r].
  - rewrite step_same_routes by reflexivity. cbn. symmetry. apply app_nil_r.
  - rewrite handleChangeSearchQuery_step. unfold handleChangeSearchQuery. cbn.
    destruct (searchQueryDebounceRef s); cbn; symmetry; apply app_nil_r.
  - unfold step, render, routesEffect. rewrite handle_routes.
    cbn [handle]. unfold handkleClickMap.
    destruct (mode s) eqn:Hmode.
    + destruct (routes s) as [|q l] eqn:Hr.
      * cbn. destruct (mapService s); cbn; rewrite ?Hr; cbn;
          rewrite <- ?app_assoc; reflexivity.
      * rewrite length_app. cbn [length].
        destruct (Nat.eqb_spec (S (length l)) (S (length l) + 1)); [lia|].
        destruct (Nat.eqb_spec (S (length l) + 1) 1); [lia|].
        cbn. destruct (mapService s); reflexivity.
    + rewrite Nat.eqb_refl. reflexivity.
  - unfold step, render, routesEffect. rewrite handle_routes. cbn [length].
    destruct (Nat.eqb_spec (length (routes s)) 0); reflexivity.
  - unfold step, render, routesEffect. rewrite handle_routes.
    destruct (routes s) as [|p0 [|p1 [|p2 l]]] eqn:Hr; cbn; rewrite ?Hr; cbn;
      try reflexivity.
    + rewrite <- app_assoc. reflexivity.
    + destruct (match length (take (length l) (p2 :: l)) with
                | 0%nat => false
                | S m' => (length l =? m')%nat
                end); reflexivity.
  - rewrite step_same_routes by reflexivity. cbn. symmetry. apply app_nil_r.
  - rewrite step_same_routes
      by (rewrite handle_routes; reflexivity).
    cbn. unfold handleRemoveSpot.
    destruct (selectedSpot s) as [j|]; [|reflexivity].
    destruct (index =? j), (index <? j); reflexivity.
  - rewrite step_same_routes by reflexivity. cbn. symmetry. apply app_nil_r.
  - rewrite fire_step. unfold_handlers. cbn. split_handler; cbn;
      symmetry; apply app_nil_r.
  - rewrite step_same_routes by (rewrite handle_routes; reflexivity).
    cbn. unfold_handlers. split_handler; cbn; symmetry; apply app_nil_r.
  - rewrite settlePlaces_step. unfold_handlers. split_handler; cbn;
      symmetry; apply app_nil_r.
Qed.

Lemma same_store_step a b e :
  routes a = routes b -> spots a = spots b -> mode a = mode b ->
  dispatched a = dispatched b ->
  routes (step a e) = routes (step b e) /\
  spots (step a e) = spots (step b e) /\
  mode (step a e) = mode (step b e) /\
  dispatched (step a e) = dispatched (step b e).
Proof.
  intros Hr Hs Hm Hd.
  rewrite !step_routes, !step_spots, !step_mode, !step_dispatched.
  rewrite !handle_routes, !handle_spots, !handle_mode.
  rewrite Hr, Hs, Hm, Hd. auto.
Qed.

(** X5: the handlers update the store and the map service in step. With
    the service attached, the drawing calls the service has received
    ([drawLine], [removeLastLine], [removeAllLines], [addMarker],
    [removeMarker]) are, in the same order, the counterparts of the road and
    spot actions dispatched to the store ([addRoute], [removeRoute],
    [clearRoute], [addSpot], [removeSpot] with the same arguments), after
    every event. With the service detached the store is updated all the same
    (the same actions are dispatched and the road and the spots are those of
    the attached session after the same events) and the service receives no
    call at all. *)
Theorem map_follows_store (es : list Event) :
  omap drawing (mapCalls (run (init true) es))
    = omap mirror (dispatched (run (init true) es)) /\
  mapCalls (run (init false) es) = [] /\
  dispatched (run (init false) es) = dispatched (run (init true) es) /\
  routes (run (init false) es) = routes (run (init true) es) /\
  spots (run (init false) es) = spots (run (init true) es).
Proof.
  split; [|split].
  - assert (Hgen : forall s, mapService s = true ->
              omap drawing (mapCalls s) = omap mirror (dispatched s) ->
              omap drawing (mapCalls (run s es))
                = omap mirror (dispatched (run s es))).
    { induction es as [|e es IH]; intros s Hsvc Hs; [exact Hs|].
      rewrite run_cons. apply IH.
      - rewrite step_mapService. exact Hsvc.
      - apply lockstep_step; assumption. }
    apply Hgen; reflexivity.
  - apply (detached_run es (init false)). reflexivity.
  - assert (Hgen : forall a b,
              routes a = routes b -> spots a = spots b -> mode a = mode b ->
              dispatched a = dispatched b ->
              dispatched (run a es) = dispatched (run b es) /\
              routes (run a es) = routes (run b es) /\
              spots (run a es) = spots (run b es)).
    { induction es as [|e es IH]; intros a b Hr Hs Hm Hd; [auto|].
      rewrite !run_cons.
      destruct (same_store_step a b e Hr Hs Hm Hd) as (Hr' & Hs' & Hm' & Hd').
      apply IH; assumption. }
    apply Hgen; reflexivity.
Qed.

(** ** Undoing *)

(** X6: reverting undoes a tap whose address has arrived. In road mode, with
    the map service attached and no lookup in flight, a tap, the answer to its
    reverse geocoding and a revert leave [routes] and [addresses] exactly as
    they were, with no lookup in flight and the spots and the selection
    untouched. *)
Theorem tap_answer_revert
  (s : State) (lat lon : float) (result : list AddressResult) :
  mode s = DrawMode.Road ->
  mapService s = true ->
  addressLookups s = [] ->
  routes (run s [ClickMap lat lon;
                 AddressSettled (nextPromise s) (Fulfilled (Some result));
                 ClickRevertRoad]) = routes s /\
  addresses (run s [ClickMap lat lon;
                    AddressSettled (nextPromise s) (Fulfilled (Some result));
                    ClickRevertRoad]) = addresses s /\
  addressLookups (run s [ClickMap lat lon;
                         AddressSettled (nextPromise s) (Fulfilled (Some result));
                         ClickRevertRoad]) = [] /\
  spots (run s [ClickMap lat lon;
                AddressSettled (nextPromise s) (Fulfilled (Some result));
                ClickRevertRoad]) = spots s /\
  selectedSpot (run s [ClickMap lat lon;
                       AddressSettled (nextPromise s) (Fulfilled (Some result));
                       ClickRevertRoad]) = selectedSpot s.
Proof.
  intros Hmode Hsvc Hnone.
  rewrite !run_cons. change (run ?a []) with a.
  set (s1 := step s (ClickMap lat lon)).
  set (s2 := step s1 (AddressSettled (nextPromise s) (Fulfilled (Some result)))).
  assert (Hr1 : routes s1 = routes s ++ [{| latitude := lat; longitude := lon |}])
    by (unfold s1; rewrite step_routes, handle_routes, Hmode; reflexivity).
  assert (Ha1 : addresses s1 = addresses s)
    by (unfold s1; rewrite step_addresses, handle_addresses; reflexivity).
  assert (Hl1 : addressLookups s1
                = [Build_Lookup (nextPromise s) {| latitude := lat; longitude := lon |}])
    by (unfold s1; rewrite step_addressLookups, handle_addressLookups,
          Hmode, Hsvc, Hnone; reflexivity).
  assert (Hr2 : routes s2 = routes s1)
    by (unfold s2; rewrite step_routes, handle_routes; reflexivity).
  assert (Ha2 : addresses s2 = addresses s ++ [displayAddress result]).
  { unfold s2. rewrite step_addresses, handle_addresses, Hl1, Ha1.
    cbn. rewrite Nat.eqb_refl. reflexivity. }
  assert (Hl2 : addressLookups s2 = []).
  { unfold s2. rewrite step_addressLookups, handle_addressLookups, Hl1.
    cbn. rewrite Nat.eqb_refl. reflexivity. }
  repeat split.
  - rewrite step_routes, handle_routes, Hr2, Hr1.
    apply take_app_length'. rewrite length_app. cbn. lia.
  - rewrite step_addresses, handle_addresses, Ha2.
    apply take_app_length'. rewrite length_app. cbn. lia.
  - rewrite step_addressLookups, handle_addressLookups. exact Hl2.
  - rewrite step_spots, handle_spots. unfold s2.
    rewrite step_spots, handle_spots. unfold s1.
    rewrite step_spots, handle_spots, Hmode. reflexivity.
  - rewrite step_selectedSpot, handle_selectedSpot. unfold s2.
    rewrite step_selectedSpot, handle_selectedSpot. unfold s1.
    rewrite step_selectedSpot, handle_selectedSpot. reflexivity.
Qed.

Lemma tap_answer_revert_witness :
  routes (run onePointSettled
            [ClickMap 37.25%float 127.5%float;
             AddressSettled (nextPromise onePointSettled) (Fulfilled (Some seolleungRo));
             ClickRevertRoad]) = routes onePointSettled /\
  addresses (run onePointSettled
               [ClickMap 37.25%float 127.5%float;
                AddressSettled (nextPromise onePointSettled) (Fulfilled (Some seolleungRo));
                ClickRevertRoad]) = addresses onePointSettled /\
  addressLookups (run onePointSettled
                    [ClickMap 37.25%float 127.5%float;
                     AddressSettled (nextPromise onePointSettled)
                       (Fulfilled (Some seolleungRo));
                     ClickRevertRoad]) = [] /\
  spots (run onePointSettled
           [ClickMap 37.25%float 127.5%float;
            AddressSettled (nextPromise onePointSettled) (Fulfilled (Some seolleungRo));
            ClickRevertRoad]) = spots onePointSettled /\
  selectedSpot (run onePointSettled
                  [ClickMap 37.25%float 127.5%float;
                   AddressSettled (nextPromise onePointSettled)
                     (Fulfilled (Some seolleungRo));
                   ClickRevertRoad]) = selectedSpot onePointSettled.
Proof.
  apply (tap_answer_revert onePointSettled 37.25%float 127.5%float seolleungRo);
    reflexivity.
Defined.

(** X7: removing the spot just placed undoes the tap. In spot mode, with a
    selection that is unset or a spot of the list, a tap followed by the
    removal of the last spot leaves [spots] and [selectedSpot] as they were,
    and the road untouched. *)
Theorem spot_tap_then_remove (s : State) (lat lon : float) :
  mode s = DrawMode.Spot ->
  validSelection s ->
  spots (run s [ClickMap lat lon; RemoveSpot (Z.of_nat (length (spots s)))])
    = spots s /\
  selectedSpot (run s [ClickMap lat lon; RemoveSpot (Z.of_nat (length (spots s)))])
    = selectedSpot s /\
  routes (run s [ClickMap lat lon; RemoveSpot (Z.of_nat (length (spots s)))])
    = routes s.
Proof.
  intros Hmode Hv.
  rewrite !run_cons. change (run ?a []) with a.
  set (s1 := step s (ClickMap lat lon)).
  assert (Hs1 : spots s1
                = spots s ++ [{| point := {| latitude := lat; longitude := lon |};
                                 title := ""; content := "" |}])
    by (unfold s1; rewrite step_spots, handle_spots, Hmode; reflexivity).
  assert (Hsel1 : selectedSpot s1 = selectedSpot s)
    by (unfold s1; rewrite step_selectedSpot, handle_selectedSpot; reflexivity).
  repeat split.
  - rewrite step_spots, handle_spots, Hs1.
    destruct (Z.leb_spec 0 (Z.of_nat (length (spots s)))); [|lia].
    rewrite Nat2Z.id.
    rewrite (delete_middle (spots s) []). apply app_nil_r.
  - rewrite step_selectedSpot, handle_selectedSpot, Hsel1.
    unfold validSelection in Hv.
    destruct (selectedSpot s) as [j|]; [|reflexivity].
    destruct (Z.eqb_spec (Z.of_nat (length (spots s))) j); [lia|].
    destruct (Z.ltb_spec (Z.of_nat (length (spots s))) j); [lia|reflexivity].
  - rewrite step_routes, handle_routes. unfold s1.
    rewrite step_routes, handle_routes, Hmode. reflexivity.
Qed.

Lemma spot_tap_then_remove_witness :
  spots (run secondSpotSelected
           [ClickMap 37.0%float 127.0%float;
            RemoveSpot (Z.of_nat (length (spots secondSpotSelected)))])
    = spots secondSpotSelected /\
  selectedSpot (run secondSpotSelected
                  [ClickMap 37.0%float 127.0%float;
                   RemoveSpot (Z.of_nat (length (spots secondSpotSelected)))])
    = selectedSpot secondSpotSelected /\
  routes (run secondSpotSelected
            [ClickMap 37.0%float 127.0%float;
             RemoveSpot (Z.of_nat (length (spots secondSpotSelected)))])
    = routes secondSpotSelected.
Proof.
  apply (spot_tap_then_remove secondSpotSelected 37.0%float 127.0%float).
  - reflexivity.
  - cbn. lia.
Defined.

(** ** Opening a road for editing *)

(** X8: on mount the two effects that dispatch to the store run one after
    the other, so that the places around the first route point are asked for
    once when the road has two points or more, twice when it has exactly one
    point, and not at all when it is empty; the road itself is not changed. *)
Theorem mount_requests_places (s : State) :
  routes (mountEffects s) = routes s /\
  dispatched (mountEffects s)
    = dispatched s
        ++ match routes s with
           | [] => []
           | [p] => [requestGetPlaces p; requestGetPlaces p]
           | p :: _ :: _ => [requestGetPlaces p]
           end.
Proof.
  unfold mountEffects, firstRoutesEffect, routesEffect.
  destruct (routes s) as [|p [|q l]] eqn:Hr; cbn; rewrite ?Hr; cbn.
  - split; [exact Hr|]. symmetry. apply app_nil_r.
  - rewrite Hr, <- app_assoc. split; reflexivity.
  - rewrite Hr. split; reflexivity.
Qed.

(** ** Submitting *)

(** X9: a road is created only when the [roadId] query parameter is the
    string [new]. With any other value [requestUpdateRoad] is dispatched with
    that value as [roadId]; with no [roadId] parameter at all the component
    keeps its initial [roadId], the empty string, and dispatches
    [requestUpdateRoad] with the empty [roadId]. *)
Theorem submit_creates_only_new
  {CategoryId PlaceCode HashTag Image Distance : Type}
  (roadIdFromQueryParam : option string)
  (st : EditState CategoryId PlaceCode HashTag Image Distance) :
  ((exists payload,
      handleSubmit (mountedRoadId roadIdFromQueryParam) st = requestCreateRoad payload)
   <-> roadIdFromQueryParam = Some "new") /\
  (forall payload,
      handleSubmit (mountedRoadId roadIdFromQueryParam) st = requestCreateRoad payload ->
      payload_roadId payload = None) /\
  (forall payload,
      handleSubmit (mountedRoadId roadIdFromQueryParam) st = requestUpdateRoad payload ->
      payload_roadId payload = Some (default "" roadIdFromQueryParam)) /\
  (roadIdFromQueryParam = None ->
   exists payload,
     handleSubmit (mountedRoadId roadIdFromQueryParam) st = requestUpdateRoad payload /\
     payload_roadId payload = Some "").
Proof.
  unfold mountedRoadId, roadIdEffect, handleSubmit.
  destruct roadIdFromQueryParam as [v|]; cbn.
  - destruct (String.eqb_spec v "new") as [->|Hne]; cbn.
    + repeat split; try discriminate; eauto.
      intros payload [= <-]. reflexivity.
    + repeat split; try discriminate.
      * intros [payload Hp]. discriminate Hp.
      * intros [= ->]. congruence.
      * intros payload [= <-]. reflexivity.
  - repeat split; try discriminate.
    + intros [payload Hp]. discriminate Hp.
    + intros payload [= <-]. reflexivity.
    + eauto.
Qed.

Lemma swap_inj (p q : RoutePoint) :
  (longitude p, latitude p) = (longitude q, latitude q) -> p = q.
Proof. destruct p, q. cbn. congruence. Qed.

Lemma spotPayload_inj (a b : SpotModel) :
  {| spot_title := title a; spot_content := content a;
     spot_point := (longitude (point a), latitude (point a)) |}
  = {| spot_title := title b; spot_content := content b;
       spot_point := (longitude (point b), latitude (point b)) |} ->
  a = b.
Proof.
  destruct a as [[alat alon] atitle acontent], b as [[blat blon] btitle bcontent].
  cbn. congruence.
Qed.

Lemma fmap_eq_inj {A B} (f : A -> B) (l k : list A) :
  (forall a b, f a = f b -> a = b) -> f <$> l = f <$> k -> l = k.
Proof.
  intros Hf. revert k.
  induction l as [|a l IH]; intros [|b k]; cbn; try discriminate; [reflexivity|].
  intros [= Hab Hlk]. f_equal; [apply Hf, Hab|apply IH, Hlk].
Qed.

(** X10: the payload determines the drawing. Two submissions whose payloads
    carry the same [routes] and the same [spots] come from stores with the
    same road and the same spots: the list order is kept and nothing of a
    point, a title or a content is lost when the coordinates are written as
    [[longitude, latitude]]. *)
Theorem payload_determines_the_drawing
  {CategoryId PlaceCode HashTag Image Distance : Type}
  (roadId roadId' : string)
  (st st' : EditState CategoryId PlaceCode HashTag Image Distance) :
  payload_routes (payloadOf (handleSubmit roadId st))
    = payload_routes (payloadOf (handleSubmit roadId' st')) ->
  payload_spots (payloadOf (handleSubmit roadId st))
    = payload_spots (payloadOf (handleSubmit roadId' st')) ->
  getRoutes st = getRoutes st' /\ getSpots st = getSpots st'.
Proof.
  unfold handleSubmit.
  destruct (negb (String.eqb roadId "new")), (negb (String.eqb roadId' "new"));
    cbn; intros Hr Hs; split;
    first [ apply (fmap_eq_inj _ _ _ swap_inj Hr)
          | apply (fmap_eq_inj _ _ _ spotPayload_inj Hs) ].
Qed.

Lemma payload_determines_the_drawing_witness :
  getRoutes drawnStore = getRoutes drawnStore /\
  getSpots drawnStore = getSpots drawnStore.
Proof.
  apply (payload_determines_the_drawing "new" "17" drawnStore drawnStore);
    reflexivity.
Defined.

(** X11: apart from [roadId], the payload does not depend on whether the
    road is created or updated: for any two values of [roadId] the payloads
    agree on every other member. The distance sent is always 3, whatever the
    distance in the store, and entry [i] of [routes] is the longitude and
    then the latitude of route point [i]. *)
Theorem payload_is_the_same_for_create_and_update
  {CategoryId PlaceCode HashTag Image Distance : Type}
  (roadId roadId' : string)
  (st : EditState CategoryId PlaceCode HashTag Image Distance) :
  payload_title (payloadOf (handleSubmit roadId st))
    = payload_title (payloadOf (handleSubmit roadId' st)) /\
  payload_content (payloadOf (handleSubmit roadId st))
    = payload_content (payloadOf (handleSubmit roadId' st)) /\
  payload_categoryId (payloadOf (handleSubmit roadId st))
    = payload_categoryId (payloadOf (handleSubmit roadId' st)) /\
  payload_placeCode (payloadOf (handleSubmit roadId st))
    = payload_placeCode (payloadOf (handleSubmit roadId' st)) /\
  payload_routes (payloadOf (handleSubmit roadId st))
    = payload_routes (payloadOf (handleSubmit roadId' st)) /\
  payload_spots (payloadOf (handleSubmit roadId st))
    = payload_spots (payloadOf (handleSubmit roadId' st)) /\
  payload_hashtags (payloadOf (handleSubmit roadId st))
    = payload_hashtags (payloadOf (handleSubmit roadId' st)) /\
  payload_images (payloadOf (handleSubmit roadId st))
    = payload_images (payloadOf (handleSubmit roadId' st)) /\
  payload_distance (payloadOf (handleSubmit roadId st)) = 3 /\
  forall i : nat,
    payload_routes (payloadOf (handleSubmit roadId st)) !! i
      = (fun p => (longitude p, latitude p)) <$> (getRoutes st !! i).
Proof.
  unfold handleSubmit.
  destruct (negb (String.eqb roadId "new")), (negb (String.eqb roadId' "new"));
    cbn; repeat split; intros i; apply list_lookup_fmap.
Qed.

Example drawnStore_payload_routes :
  payload_routes (payloadOf (handleSubmit "new" drawnStore))
    = [(127.03125%float, 37.5%float); (127.5%float, 37.25%float)].
Proof. reflexivity. Qed.

(** ** What the answers cannot change *)

Lemma sameDrawing_skip a b e :
  draws e = false -> sameDrawing a b -> sameDrawing (step a e) b.
Proof.
  intros He (Hr & Hs & Hm). unfold sameDrawing.
  rewrite step_routes, step_spots, step_mode.
  rewrite handle_routes, handle_spots, handle_mode.
  destruct e; try discriminate He; auto.
Qed.

Lemma sameDrawing_step a b e :
  sameDrawing a b -> sameDrawing (step a e) (step b e).
Proof.
  intros (Hr & Hs & Hm). unfold sameDrawing.
  rewrite !step_routes, !step_spots, !step_mode.
  rewrite !handle_routes, !handle_spots, !handle_mode.
  rewrite Hr, Hs, Hm. auto.
Qed.

(** X12: what is submitted depends on the drawing events alone. The road
    and the spots in the store after any run are those after the run without
    its keystrokes, spot selections, clock ticks, timers and answers of the
    map service, so the request [handleSubmit] builds from the store is the
    same: no answer, early, late or missing, changes what is submitted. *)
Theorem drawing_decides_the_submission
  {CategoryId PlaceCode HashTag Image Distance : Type}
  (s : State) (es : list Event) (roadId : string)
  (st : EditState CategoryId PlaceCode HashTag Image Distance) :
  routes (run s es) = routes (run s (List.filter draws es)) /\
  spots (run s es) = spots (run s (List.filter draws es)) /\
  handleSubmit roadId (afterDrawing st (run s es))
    = handleSubmit roadId (afterDrawing st (run s (List.filter draws es))).
Proof.
  assert (Hgen : forall a b, sameDrawing a b ->
                   sameDrawing (run a es) (run b (List.filter draws es))).
  { induction es as [|e es IH]; intros a b Hab; [exact Hab|].
    rewrite run_cons. cbn [List.filter].
    destruct (draws e) eqn:He.
    - rewrite run_cons. apply IH, sameDrawing_step, Hab.
    - apply IH, sameDrawing_skip; assumption. }
  destruct (Hgen s s) as (Hr & Hs & _); [repeat split|].
  split; [exact Hr|]. split; [exact Hs|].
  unfold afterDrawing. rewrite Hr, Hs. reflexivity.
Qed.

(** ** A map service that is not attached *)

Lemma step_places_list s e :
  resolvesToList e -> mapService s = true ->
  is_Some (places s) -> is_Some (places (step s e)).
Proof.
  intros He Hsvc Hp. unfold step.
  destruct (render_frame s (handle e s)) as (_ & _ & _ & _ & -> & _).
  destruct e as [m|v|lat lon| | |spot index|index|ms|t|n r|n r];
    unfold_handlers; cbn; rewrite ?Hsvc; split_handler; cbn; rewrite ?Hsvc;
    cbn; try exact Hp; try (eexists; reflexivity).
  cbn in He. destruct v; [eexists; reflexivity|contradiction].
Qed.

(** X13: with the map service attached, [places] is a list after every
    event, provided no place search resolves to [undefined]: the
    [places.map] of the render always has a list to map over. *)
Theorem places_stay_a_list (es : list Event) :
  Forall resolvesToList es ->
  is_Some (places (run (init true) es)).
Proof.
  assert (Hgen : forall s, Forall resolvesToList es -> mapService s = true ->
                   is_Some (places s) -> is_Some (places (run s es))).
  { induction es as [|e es IH]; intros s Hes Hsvc Hp; [exact Hp|].
    apply Forall_cons in Hes as [He Hes]. rewrite run_cons.
    apply IH; [exact Hes|rewrite step_mapService; exact Hsvc|].
    apply step_places_list; assumption. }
  intros Hes. apply Hgen; [exact Hes|reflexivity|eexists; reflexivity].
Qed.

Lemma places_stay_a_list_witness :
  is_Some (places (run (init true)
                     [ChangeSearchQuery "cafe"; Elapse 500; Timeout 1;
                      PlacesSettled 0 (Fulfilled (Some [cafe]));
                      ChangeSearchQuery "cafes"; Elapse 500; Timeout 2;
                      PlacesSettled 1 Rejected])).
Proof.
  apply (places_stay_a_list
           [ChangeSearchQuery "cafe"; Elapse 500; Timeout 1;
            PlacesSettled 0 (Fulfilled (Some [cafe]));
            ChangeSearchQuery "cafes"; Elapse 500; Timeout 2;
            PlacesSettled 1 Rejected]).
  repeat constructor.
Defined.

(** X14: when the debounce timer of a text that is not empty fires while the
    map service is not attached, no search is made and nothing is in flight,
    but [places] is set to [undefined] (the optional chain gives [undefined]
    and the callback stores it), whatever list it held before. *)
Theorem detached_search_unsets_places (s : State) (t : positive) (timer : Timer) :
  mapService s = false ->
  timers s !! t = Some timer ->
  (due timer <= clock s)%nat ->
  isEmpty (value timer) = false ->
  places (step s (Timeout t)) = None /\
  mapCalls (step s (Timeout t)) = mapCalls s /\
  placeLookups (step s (Timeout t)) = placeLookups s /\
  timers (step s (Timeout t)) = delete t (timers s).
Proof.
  intros Hsvc Ht Hdue Hv.
  rewrite fire_step. unfold fire. rewrite Ht.
  destruct (Nat.leb_spec (due timer) (clock s)); [|lia].
  unfold debounced. rewrite Hv. cbn. rewrite Hsvc. cbn. repeat split.
Qed.

Lemma detached_search_unsets_places_witness :
  places (step (run (init false) [ChangeSearchQuery "cafe"; Elapse 500]) (Timeout 1))
    = None /\
  mapCalls (step (run (init false) [ChangeSearchQuery "cafe"; Elapse 500]) (Timeout 1))
    = mapCalls (run (init false) [ChangeSearchQuery "cafe"; Elapse 500]) /\
  placeLookups (step (run (init false) [ChangeSearchQuery "cafe"; Elapse 500]) (Timeout 1))
    = placeLookups (run (init false) [ChangeSearchQuery "cafe"; Elapse 500]) /\
  timers (step (run (init false) [ChangeSearchQuery "cafe"; Elapse 500]) (Timeout 1))
    = delete 1%positive (timers (run (init false) [ChangeSearchQuery "cafe"; Elapse 500])).
Proof.
  apply (detached_search_unsets_places
           (run (init false) [ChangeSearchQuery "cafe"; Elapse 500]) 1
           {| due := 500; value := "cafe" |}).
  - reflexivity.
  - reflexivity.
  - vm_compute. lia.
  - reflexivity.
Defined.

Lemma detached_step_addresses s e :
  mapService s = false -> addressLookups s = [] -> placeLookups s = [] ->
  addresses s = [] ->
  addressLookups (step s e) = [] /\ placeLookups (step s e) = [] /\
  addresses (step s e) = [].
Proof.
  intros Hsvc Hal Hpl Ha. unfold step.
  destruct (render_frame s (handle e s))
    as (_ & _ & _ & _ & _ & -> & _ & _ & _ & _ & _ & _ & -> & -> & _).
  destruct e as [m|v|lat lon| | |spot index|index|ms|t|n r|n r];
    unfold_handlers; cbn; rewrite ?Hsvc, ?Hal, ?Hpl, ?Ha; cbn;
    split_handler; cbn; rewrite ?Hsvc, ?Hal, ?Hpl, ?Ha; cbn;
    repeat split; try reflexivity; try assumption.
Qed.

(** X15: in a session whose map service is never attached the road still
    grows with every tap in road mode, but no address is ever shown and no
    lookup is ever in flight: [addresses] stays empty after every event. *)
Theorem detached_road_has_no_address (es : list Event) :
  addresses (run (init false) es) = [] /\
  addressLookups (run (init false) es) = [] /\
  placeLookups (run (init false) es) = [] /\
  forall lat lon,
    mode (run (init false) es) = DrawMode.Road ->
    routes (step (run (init false) es) (ClickMap lat lon))
      = routes (run (init false) es) ++ [{| latitude := lat; longitude := lon |}].
Proof.
  assert (Hgen : forall s, mapService s = false -> addressLookups s = [] ->
                   placeLookups s = [] -> addresses s = [] ->
                   addressLookups (run s es) = [] /\ placeLookups (run s es) = [] /\
                   addresses (run s es) = []).
  { induction es as [|e es IH]; intros s Hsvc Hal Hpl Ha; [auto|].
    rewrite run_cons.
    destruct (detached_step_addresses s e Hsvc Hal Hpl Ha) as (Hal' & Hpl' & Ha').
    apply IH; [rewrite step_mapService; exact Hsvc|assumption..]. }
  destruct (Hgen (init false)) as (Hal & Hpl & Ha); try reflexivity.
  repeat split; try assumption.
  intros lat lon Hmode. rewrite step_routes, handle_routes, Hmode. reflexivity.
Qed.

(** ** The rendered lists *)

(** X16: the route list has one row per address (not per route point), in
    the order of [addresses]. The first row, and only the first, is marked as
    the departure and has no space above it; the last row is marked as the
    arrival only when it is not also the first, so that a list of one address
    shows a departure and no arrival; every other row shows the circle. *)
Theorem route_list_marks (s : State) (rows : list RouteRow) :
  RouteList s = Some rows ->
  length rows = length (addresses s) /\
  forall (i : nat) (row : RouteRow),
    rows !! i = Some row ->
    addresses s !! i = Some (route row) /\
    (mark row = departure <-> i = 0%nat) /\
    (mark row = arrival <-> i <> 0%nat /\ S i = length (addresses s)) /\
    (spaceAbove row = false <-> i = 0%nat).
Proof.
  unfold RouteList.
  destruct (length (routes s) =? 0)%nat; [discriminate|].
  intros [= <-]. split; [apply length_imap|].
  intros i row Hrow. rewrite list_lookup_imap in Hrow.
  destruct (addresses s !! i) as [address|] eqn:Hi; [|discriminate Hrow].
  cbn in Hrow. injection Hrow as <-. cbn [route mark spaceAbove routeRow].
  split; [reflexivity|].
  apply lookup_lt_Some in Hi.
  destruct (Z.eqb_spec (Z.of_nat i) 0) as [H0|H0].
  - repeat split; intros; try lia; try discriminate; reflexivity.
  - destruct (Z.eqb_spec (Z.of_nat i) (Z.of_nat (length (addresses s)) - 1)).
    + repeat split; intros; try lia; try discriminate; try reflexivity.
    + repeat split; intros; try lia; try discriminate.
Qed.

Lemma route_list_marks_witness :
  length [ {| spaceAbove := false; mark := departure;
              route := "Teheran-ro 1 (Gangnam-gu)" |} ]
    = length (addresses onePointSettled) /\
  forall (i : nat) (row : RouteRow),
    [ {| spaceAbove := false; mark := departure;
         route := "Teheran-ro 1 (Gangnam-gu)" |} ] !! i = Some row ->
    addresses onePointSettled !! i = Some (route row) /\
    (mark row = departure <-> i = 0%nat) /\
    (mark row = arrival <-> i <> 0%nat /\ S i = length (addresses onePointSettled)) /\
    (spaceAbove row = false <-> i = 0%nat).
Proof.
  apply (route_list_marks onePointSettled
           [ {| spaceAbove := false; mark := departure;
                route := "Teheran-ro 1 (Gangnam-gu)" |} ]).
  reflexivity.
Defined.

(** X17: the spot list highlights the selected spot and no other. When the
    selection is a spot of the list, the row of that spot exists, shows that
    spot and is the only active row. *)
Theorem spot_list_highlights_selection (s : State) (j : Z) :
  validSelection s ->
  selectedSpot s = Some j ->
  (exists row spot,
     SpotList s !! Z.to_nat j = Some row /\
     spots s !! Z.to_nat j = Some spot /\
     shown row = spot /\ active row = true) /\
  forall (i : nat) (row : SpotRow),
    SpotList s !! i = Some row -> active row = true -> i = Z.to_nat j.
Proof.
  unfold validSelection, SpotList. intros Hv Hj. rewrite Hj in *.
  split.
  - destruct (lookup_lt_is_Some_2 (spots s) (Z.to_nat j)) as [spot Hspot]; [lia|].
    exists {| active := j =? Z.of_nat (Z.to_nat j); shown := spot |}, spot.
    rewrite list_lookup_imap, Hspot. cbn.
    repeat split. apply Z.eqb_eq. lia.
  - intros i row Hrow Hactive. rewrite list_lookup_imap in Hrow.
    destruct (spots s !! i) as [spot|]; [|discriminate Hrow].
    cbn in Hrow. injection Hrow as <-. cbn in Hactive.
    apply Z.eqb_eq in Hactive. lia.
Qed.

Lemma spot_list_highlights_selection_witness :
  (exists row spot,
     SpotList secondSpotSelected !! Z.to_nat 1 = Some row /\
     spots secondSpotSelected !! Z.to_nat 1 = Some spot /\
     shown row = spot /\ active row = true) /\
  forall (i : nat) (row : SpotRow),
    SpotList secondSpotSelected !! i = Some row -> active row = true ->
    i = Z.to_nat 1.
Proof.
  apply (spot_list_highlights_selection secondSpotSelected 1).
  - cbn. lia.
  - reflexivity.
Defined.

Example route_list_of_two :
  RouteList (run twoPoints
               [AddressSettled 0 (Fulfilled (Some teheranRo));
                AddressSettled 1 (Fulfilled (Some seolleungRo))])
    = Some [ {| spaceAbove := false; mark := departure;
                route := "Teheran-ro 1 (Gangnam-gu)" |};
             {| spaceAbove := true; mark := arrival;
                route := "Seolleung-ro 2 (Yeoksam-dong)" |} ].
Proof. reflexivity. Qed.

(** ** Drawing a road *)

Lemma road_tap_dispatched s lat lon :
  mode s = DrawMode.Road -> routes s <> [] ->
  routes (step s (ClickMap lat lon))
    = routes s ++ [{| latitude := lat; longitude := lon |}] /\
  dispatched (step s (ClickMap lat lon))
    = dispatched s ++ [addRoute {| latitude := lat; longitude := lon |}] /\
  mode (step s (ClickMap lat lon)) = DrawMode.Road.
Proof.
  intros Hmode Hne.
  split; [rewrite step_routes, handle_routes, Hmode; reflexivity|].
  split; [|rewrite step_mode, handle_mode; exact Hmode].
  unfold step, render, routesEffect. rewrite handle_routes, Hmode.
  destruct (routes s) as [|p l] eqn:Hr; [congruence|].
  rewrite length_app. cbn [length].
  destruct (Nat.eqb_spec (S (length l)) (S (length l) + 1)); [lia|].
  destruct (Nat.eqb_spec (S (length l) + 1) 1); [lia|].
  cbn. unfold handkleClickMap. rewrite Hmode. cbn.
  destruct (mapService s); reflexivity.
Qed.

Lemma road_taps_dispatched (taps : list (float * float)) : forall s,
  mode s = DrawMode.Road -> routes s <> [] ->
  routes (run s ((fun tap => ClickMap tap.1 tap.2) <$> taps))
    = routes s ++ ((fun tap => {| latitude := tap.1; longitude := tap.2 |}) <$> taps) /\
  dispatched (run s ((fun tap => ClickMap tap.1 tap.2) <$> taps))
    = dispatched s
        ++ ((fun tap => addRoute {| latitude := tap.1; longitude := tap.2 |}) <$> taps).
Proof.
  induction taps as [|[lat lon] taps IH]; intros s Hmode Hne.
  - cbn. rewrite !app_nil_r. split; reflexivity.
  - rewrite !fmap_cons, run_cons. cbn [fst snd].
    destruct (road_tap_dispatched s lat lon Hmode Hne) as (Hr & Hd & Hm).
    destruct (IH (step s (ClickMap lat lon)) Hm) as [-> ->].
    { rewrite Hr. destruct (routes s); discriminate. }
    rewrite Hr, Hd, <- !app_assoc. split; reflexivity.
Qed.

(** X18: the places around the start of the road are asked for once. Taps
    in road mode on an empty road append their points to the road in the
    order of the taps, and the actions dispatched are one [addRoute] per tap
    with a single [requestGetPlaces], for the first point, right after the
    first [addRoute]. *)
Theorem road_taps_request_places_once
  (lat lon : float) (taps : list (float * float)) (s : State) :
  mode s = DrawMode.Road ->
  routes s = [] ->
  routes (run s (ClickMap lat lon :: ((fun tap => ClickMap tap.1 tap.2) <$> taps)))
    = {| latitude := lat; longitude := lon |}
        :: ((fun tap => {| latitude := tap.1; longitude := tap.2 |}) <$> taps) /\
  dispatched (run s (ClickMap lat lon :: ((fun tap => ClickMap tap.1 tap.2) <$> taps)))
    = dispatched s
        ++ addRoute {| latitude := lat; longitude := lon |}
        :: requestGetPlaces {| latitude := lat; longitude := lon |}
        :: ((fun tap => addRoute {| latitude := tap.1; longitude := tap.2 |}) <$> taps).
Proof.
  intros Hmode Hr. rewrite run_cons.
  assert (Hr1 : routes (step s (ClickMap lat lon))
                = [{| latitude := lat; longitude := lon |}])
    by (rewrite step_routes, handle_routes, Hmode, Hr; reflexivity).
  assert (Hd1 : dispatched (step s (ClickMap lat lon))
                = dispatched s ++ [addRoute {| latitude := lat; longitude := lon |};
                                   requestGetPlaces {| latitude := lat; longitude := lon |}]).
  { unfold step, render, routesEffect. rewrite handle_routes, Hmode, Hr.
    cbn. unfold handkleClickMap. rewrite Hmode. cbn.
    destruct (mapService s); cbn; rewrite ?Hr; cbn; rewrite <- ?app_assoc; reflexivity. }
  destruct (road_taps_dispatched taps (step s (ClickMap lat lon))) as [-> ->].
  - rewrite step_mode, handle_mode. exact Hmode.
  - rewrite Hr1. discriminate.
  - rewrite Hr1, Hd1, <- app_assoc. split; reflexivity.
Qed.

Lemma road_taps_request_places_once_witness :
  routes (run (init true)
            (ClickMap 37.5%float 127.03125%float
               :: ((fun tap => ClickMap tap.1 tap.2)
                     <$> [(37.25%float, 127.5%float); (37.0%float, 127.0%float)])))
    = {| latitude := 37.5; longitude := 127.03125 |}
        :: ((fun tap => {| latitude := tap.1; longitude := tap.2 |})
              <$> [(37.25%float, 127.5%float); (37.0%float, 127.0%float)]) /\
  dispatched (run (init true)
                (ClickMap 37.5%float 127.03125%float
                   :: ((fun tap => ClickMap tap.1 tap.2)
                         <$> [(37.25%float, 127.5%float); (37.0%float, 127.0%float)])))
    = dispatched (init true)
        ++ addRoute {| latitude := 37.5; longitude := 127.03125 |}
        :: requestGetPlaces {| latitude := 37.5; longitude := 127.03125 |}
        :: ((fun tap => addRoute {| latitude := tap.1; longitude := tap.2 |})
              <$> [(37.25%float, 127.5%float); (37.0%float, 127.0%float)]).
Proof.
  apply (road_taps_request_places_once 37.5%float 127.03125%float
           [(37.25%float, 127.5%float); (37.0%float, 127.0%float)] (init true));
    reflexivity.
Defined.
